(** * Verification of the Python workflow engine (python_agents/workflow_engine.py)
    and of the WebSocket broadcast of python_agents/main.py.

    Python dicts are modelled as [gmap string value]; Python values that
    the engine inspects are modelled by [value], keeping exactly the two
    operations the engine applies to them: truthiness and [str()]. *)

From stdpp Require Import base gmap strings list pretty.

Open Scope string_scope.

(** ** Python values *)

(** [VObj truthy repr] is an opaque object (a nested dict, a number, ...)
    given by its truthiness and its [str()] rendering. *)
Inductive value :=
| VNone
| VBool (b : bool)
| VStr (s : string)
| VObj (truthy : bool) (repr : string).

#[global] Instance value_eq_dec : EqDecision value.
Proof. solve_decision. Defined.

(** Python truthiness ([if x:]). *)
Definition truthy (v : value) : bool :=
  match v with
  | VNone => false
  | VBool b => b
  | VStr s => negb (String.eqb s "")
  | VObj t _ => t
  end.

(** Python [str(x)]. *)
Definition py_str (v : value) : string :=
  match v with
  | VNone => "None"
  | VBool true => "True"
  | VBool false => "False"
  | VStr s => s
  | VObj _ r => r
  end.

(** [WorkflowState] is a [TypedDict]: at run time a plain dict. *)
Abbreviation WorkflowState := (gmap string value).

(** [d.get(k)] *)
Definition dict_get (d : WorkflowState) (k : string) : value :=
  default VNone (d !! k).

(** [d.update(r)]: the keys of [r] overwrite those of [d]
    (stdpp's union is left-biased). *)
Definition dict_update (d r : WorkflowState) : WorkflowState := r ∪ d.

(** ** Progress events (workflow_state.py, class AgentProgress) *)

Record AgentProgress := mkAgentProgress {
  workflow_id : string;
  agent : string;
  message : string;
  progress : Z;
  completed : bool
}.

(** A progress callback, as the awaited coroutine it is: [Some m] when the
    call raises an exception whose [str()] is [m], [None] when it returns. *)
Definition Callback := AgentProgress -> option string.

(** ** The execution driver's monad

    [_execute_workflow] works on the dict object stored in
    [active_workflows] (the local [state] aliases the store entry), so its
    mutations are the store's.  The world records that dict, the snapshot
    of the dict after every mutation (what a concurrent [get_workflow_status]
    can observe), the progress events handed to the callback, and the
    stages invoked. *)
Record World := mkWorld {
  w_state : WorkflowState;
  w_trace : list WorkflowState;
  w_events : list AgentProgress;
  w_stages : list string
}.

(** A computation: the new world and either a raised exception (its
    [str()]) or a result. *)
Definition M (A : Type) := World -> World * (string + A).

Definition ret {A} (x : A) : M A := fun w => (w, inr x).

Definition bind {A B} (m : M A) (k : A -> M B) : M B :=
  fun w => match m w with
           | (w', inl e) => (w', inl e)
           | (w', inr x) => k x w'
           end.

Notation "'let!' x := m 'in' k" := (bind m (fun x => k))
  (at level 200, x name, m at level 100, k at level 200).
Notation "'do!' m 'in' k" := (bind m (fun _ => k))
  (at level 200, m at level 100, k at level 200).

(** [raise Exception(msg)] *)
Definition raise {A} (msg : string) : M A := fun w => (w, inl msg).

(** [try: body except Exception as error: handler(str(error))] *)
Definition try_except {A} (body : M A) (handler : string -> M A) : M A :=
  fun w => match body w with
           | (w', inl e) => handler e w'
           | (w', inr x) => (w', inr x)
           end.

(** [state[k] = v] *)
Definition set_key (k : string) (v : value) : M unit :=
  fun w => let s := <[k := v]> (w_state w) in
           (mkWorld s (w_trace w ++ [s]) (w_events w) (w_stages w), inr tt).

(** [state.update(r)] *)
Definition update_state (r : WorkflowState) : M unit :=
  fun w => let s := dict_update (w_state w) r in
           (mkWorld s (w_trace w ++ [s]) (w_events w) (w_stages w), inr tt).

(** [if progress_callback: await progress_callback(ev)] *)
Definition emit (cb : option Callback) (ev : AgentProgress) : M unit :=
  match cb with
  | None => ret tt
  | Some f => fun w =>
      let w' := mkWorld (w_state w) (w_trace w) (w_events w ++ [ev]) (w_stages w) in
      match f ev with
      | Some e => (w', inl e)
      | None => (w', inr tt)
      end
  end.

(** ** Agent stages

    An agent's [execute(state, progress)] is awaited by the engine.  Seen
    from the engine it makes a sequence of progress reports
    [(agent, message, progress)] through the reporter it is given, then
    returns a dict or raises.  A reporter call that raises aborts the
    agent (the agents do not catch around their reports).  The agents
    only read the state dict they are given. *)
Definition Report := (string * string * Z)%type.
Definition StageRun := (list Report * (string + WorkflowState))%type.
Definition Stage := WorkflowState -> StageRun.

Fixpoint report_all (rep : Report -> M unit) (l : list Report) : M unit :=
  match l with
  | [] => ret tt
  | x :: l' => do! rep x in report_all rep l'
  end.

Definition run_stage (rep : Report -> M unit) (r : StageRun) : M WorkflowState :=
  do! report_all rep r.1 in
  match r.2 with
  | inl e => raise e
  | inr d => ret d
  end.

(** [await agent.execute(state, reporter)]; [name] is logged as invoked. *)
Definition invoke_stage (name : string) (stage : Stage) (rep : Report -> M unit)
    : M WorkflowState :=
  fun w => run_stage rep (stage (w_state w))
             (mkWorld (w_state w) (w_trace w) (w_events w) (w_stages w ++ [name])).

(** [analyst_progress] of [_execute_workflow] *)
Definition analyst_progress (cb : option Callback) (wid : string) (r : Report) : M unit :=
  match r with
  | (ag, msg, p) => emit cb (mkAgentProgress wid ag msg p false)
  end.

(** ** The driver: body of [_execute_workflow] after the lookups *)
Definition execute_body (jira_analyst : Stage) (cb : option Callback) (wid : string)
    : M unit :=
  try_except
    (let! analyst_result := invoke_stage "jira-analyst" jira_analyst
                                         (analyst_progress cb wid) in
     do! (if truthy (dict_get analyst_result "error")
          then raise (py_str (dict_get analyst_result "error"))
          else ret tt) in
     do! update_state analyst_result in
     do! set_key "currentAgent" (VStr "completed") in
     do! emit cb (mkAgentProgress wid "jira-analyst"
                    "Ticket data fetch and Excel export completed" 100 true) in
     do! set_key "current_step" (VStr "completed") in
     do! set_key "currentAgent" (VStr "completed") in
     emit cb (mkAgentProgress wid "workflow"
                "LangChain workflow completed successfully" 100 true))
    (fun error =>
       do! set_key "error" (VStr error) in
       do! set_key "current_step" (VStr "failed") in
       emit cb (mkAgentProgress wid "workflow"
                  ("Workflow failed: " ++ error) 100 true)).

(** The driver started on a state dict, with nothing yet observed. *)
Definition world0 (s : WorkflowState) : World := mkWorld s [] [] [].

Definition run_driver (jira_analyst : Stage) (cb : option Callback) (wid : string)
    (s : WorkflowState) : World * (string + unit) :=
  execute_body jira_analyst cb wid (world0 s).

(** ** The engine (class PythonWorkflowEngine) *)

(** [tasks] lists the workflows whose [_execute_workflow] task was created
    by [asyncio.create_task] and has not run yet. *)
Record Engine := mkEngine {
  active_workflows : gmap string WorkflowState;
  progress_callbacks : gmap string Callback;
  tasks : list string
}.

Definition engine_init : Engine := mkEngine ∅ ∅ [].

(** The [metadata] dict of a new workflow; [now] is
    [datetime.now().isoformat()]. *)
Definition metadata_value (now : string) : value :=
  VObj true ("{'start_time': '" ++ now ++
             "', 'engine_type': 'langchain-python', 'version': '2.0'}").

Definition initial_state (jira_ticket_id now : string) : WorkflowState :=
  <["metadata" := metadata_value now]>
  (<["currentAgent" := VStr "jira-analyst"]>
  (<["current_step" := VStr "jira_analyst"]>
  {["jira_ticket_id" := VStr jira_ticket_id]})).

(** [start_workflow]: [workflow_id] is the fresh [str(uuid.uuid4())].  The
    coroutine has no [await], so it runs without interleaving. *)
Definition start_workflow (workflow_id jira_ticket_id now : string)
    (progress_callback : option Callback) (e : Engine) : Engine * string :=
  let aw := <[workflow_id := initial_state jira_ticket_id now]> (active_workflows e) in
  let pc := match progress_callback with
            | Some f => <[workflow_id := f]> (progress_callbacks e)
            | None => progress_callbacks e
            end in
  (mkEngine aw pc (tasks e ++ [workflow_id]), workflow_id).

Definition get_workflow_status (workflow_id : string) (e : Engine) : option WorkflowState :=
  active_workflows e !! workflow_id.

Definition get_all_workflows (e : Engine) : gmap string WorkflowState :=
  active_workflows e.

(** [cleanup_workflow] (no [await] either) *)
Definition cleanup_workflow (workflow_id : string) (e : Engine) : Engine :=
  let aw := if decide (is_Some (active_workflows e !! workflow_id))
            then delete workflow_id (active_workflows e) else active_workflows e in
  let pc := if decide (is_Some (progress_callbacks e !! workflow_id))
            then delete workflow_id (progress_callbacks e) else progress_callbacks e in
  mkEngine aw pc (tasks e).

(** [_execute_workflow(workflow_id)] run to its end: the dict it mutates
    is the store entry.  Returns the engine and, when the workflow was
    found, the driver's world and outcome. *)
Definition execute_workflow (jira_analyst : Stage) (workflow_id : string) (e : Engine)
    : Engine * option (World * (string + unit)) :=
  match active_workflows e !! workflow_id with
  | None => (e, None)
  | Some state =>
      if decide (state = ∅) then (e, None) else
      let progress_callback := progress_callbacks e !! workflow_id in
      let r := run_driver jira_analyst progress_callback workflow_id state in
      (mkEngine (<[workflow_id := w_state r.1]> (active_workflows e))
                (progress_callbacks e) (tasks e), Some r)
  end.

(** Removal of the first occurrence (the task leaves the ready queue). *)
Fixpoint remove_first (x : string) (l : list string) : list string :=
  match l with
  | [] => []
  | y :: l' => if String.eqb x y then l' else y :: remove_first x l'
  end.

(** Operations on the engine: the API calls and the event loop running a
    created task. *)
Inductive Op :=
| OpStart (workflow_id jira_ticket_id now : string) (cb : option Callback)
| OpRun (workflow_id : string)
| OpCleanup (workflow_id : string).

Definition step (jira_analyst : Stage) (op : Op) (e : Engine) : Engine :=
  match op with
  | OpStart wid tid now cb => (start_workflow wid tid now cb e).1
  | OpRun wid =>
      if decide (wid ∈ tasks e) then
        (execute_workflow jira_analyst wid
           (mkEngine (active_workflows e) (progress_callbacks e)
                     (remove_first wid (tasks e)))).1
      else e
  | OpCleanup wid => cleanup_workflow wid e
  end.

(** Operations applied in order from a given engine. *)
Fixpoint run_ops (jira_analyst : Stage) (ops : list Op) (e : Engine) : Engine :=
  match ops with
  | [] => e
  | op :: ops' => run_ops jira_analyst ops' (step jira_analyst op e)
  end.

(** ** The concrete first stage: [LangChainJiraAnalystAgent.execute] (agents.py) *)

(** The fields of [JiraTicketData] the agent reads; [ticket_dict] is
    [jira_ticket_data.dict()]. *)
Record JiraTicketData := mkJiraTicketData {
  key : string;
  summary : value;
  ticket_dict : value
}.

Section JiraAnalyst.

(** [await jira_client.get_ticket(id)]: raises, or the ticket. *)
Variable get_ticket : value -> string + JiraTicketData.
(** [get_jira_details_to_excel(key, export_dir)] together with the
    [os.makedirs] before it: raises, or the returned file name. *)
Variable get_jira_details_to_excel : string -> string -> string + value.
(** [os.path.exists] *)
Variable path_exists : string -> bool.
(** [await jira_client.create_hsd_ticket(ticket)]: raises, or the key. *)
Variable create_hsd_ticket : JiraTicketData -> string + value.

Definition jira_analyst_execute (state : WorkflowState) : StageRun :=
  let r10 := ("jira-analyst", "Starting ticket data fetch...", 10%Z) in
  match get_ticket (dict_get state "jira_ticket_id") with
  | inl e => ([r10], inl e)
  | inr jira_ticket_data =>
      let excel_file :=
        match get_jira_details_to_excel (key jira_ticket_data) "jira_exports" with
        | inl _ => VNone
        | inr f => if truthy f && path_exists (py_str f) then f else VNone
        end in
      let hsd_ticket_key :=
        match create_hsd_ticket jira_ticket_data with
        | inl _ => VNone
        | inr k => k
        end in
      ([r10;
        ("jira-analyst", "Exporting ticket data to Excel...", 30%Z);
        ("jira-analyst", "Creating HSD ticket...", 70%Z);
        ("jira-analyst", "Workflow completed successfully", 100%Z)],
       inr (<["status" := VStr "completed"]>
            (<["hsd_ticket_key" := hsd_ticket_key]>
            (<["excel_export" := excel_file]>
            (<["summary" := summary jira_ticket_data]>
            (<["ticket_key" := VStr (key jira_ticket_data)]>
            (<["current_step" := VStr "completed"]>
            {["jira_ticket_data" := ticket_dict jira_ticket_data]})))))))
  end.

End JiraAnalyst.

(** ** WebSocket broadcast: [ConnectionManager] (main.py) *)

Section Broadcast.

(** Broadcast messages are JSON-serialisable dicts; connections are
    identified by numbers. *)
Variable Message : Type.
(** [await connection.send_text(json.dumps(message))] raises. *)
Variable send_fails : nat -> Message -> bool.

(** [list.remove]: the first occurrence. *)
Fixpoint remove_conn (c : nat) (l : list nat) : list nat :=
  match l with
  | [] => []
  | d :: l' => if Nat.eqb c d then l' else d :: remove_conn c l'
  end.

(** [disconnect] *)
Definition disconnect (c : nat) (active_connections : list nat) : list nat :=
  if decide (c ∈ active_connections) then remove_conn c active_connections
  else active_connections.

(** The [for] loop of [broadcast] when no other coroutine changes
    [active_connections] while it is suspended at its sends: the
    connections that received the message and the list [disconnected], in
    order.  [broadcast_solo] below shows that it is the coroutine model
    [csched] run without interleaved events. *)
Fixpoint send_loop (message : Message) (conns : list nat) : list nat * list nat :=
  match conns with
  | [] => ([], [])
  | c :: conns' =>
      let r := send_loop message conns' in
      if send_fails c message then (r.1, c :: r.2) else (c :: r.1, r.2)
  end.

(** [broadcast(message)] run without interleaving (see [send_loop]):
    never raises (bare [except:]).  Returns the receivers and the new
    [active_connections]. *)
Definition broadcast (message : Message) (active_connections : list nat)
    : list nat * list nat :=
  let r := send_loop message active_connections in
  (r.1, fold_left (fun l c => disconnect c l) r.2 active_connections).

(** Successive broadcasts, each returning before the next starts and
    with no other change of the list meanwhile: the receivers of each, and
    the final list. *)
Fixpoint broadcast_all (messages : list Message) (active_connections : list nat)
    : list (list nat) * list nat :=
  match messages with
  | [] => ([], active_connections)
  | m :: ms =>
      let r := broadcast m active_connections in
      let rs := broadcast_all ms r.2 in
      (r.1 :: rs.1, rs.2)
  end.

End Broadcast.

(** ** Broadcasts as coroutines sharing the connection list

    [broadcast] suspends at every [await connection.send_text(...)].  While
    it is suspended, the other coroutines of the event loop run: the other
    broadcasts (the [progress_callback] of every workflow and the start
    endpoint broadcast through the same [manager]), [websocket_endpoint],
    which calls [manager.disconnect] when its client leaves, and
    [connect].  The [for] loop iterates the live list
    [self.active_connections] through a list iterator, that is an index:
    [next] yields [l[i]] and advances while [i < len(l)], and ends the
    loop otherwise.  The code between two suspensions runs without
    interleaving. *)

Section Coroutines.

Variable Message : Type.
(** [await connection.send_text(json.dumps(message))] raises. *)
Variable send_fails : nat -> Message -> bool.

(** A [broadcast(message)] coroutine: suspended in the send of [message]
    to [conn], its iterator at [index], with its list [disconnected]; or
    returned. *)
Inductive BTask :=
| BAwait (message : Message) (index : nat) (conn : nat) (disconnected : list nat)
| BDone.

(** The shared list, the broadcast coroutines started so far (numbered in
    the order they started), and the deliveries, as (connection, message)
    pairs in order. *)
Record Conns := mkConns {
  active_connections : list nat;
  btasks : list BTask;
  delivered : list (nat * Message)
}.

(** From the loop head, the iterator at [index]: take the next connection
    and start the send to it (the coroutine suspends), or leave the loop,
    run the [disconnect] loop (no [await] in it) and return. *)
Definition loop_from (message : Message) (index : nat) (disconnected : list nat)
    (l : list nat) : BTask * list nat :=
  match nth_error l index with
  | Some c => (BAwait message (S index) c disconnected, l)
  | None => (BDone, fold_left (fun l c => disconnect c l) disconnected l)
  end.

(** The events of the event loop that touch the list: a new
    [broadcast(message)] runs to its first suspension; broadcast [k]'s
    pending send returns or raises ([except:] appends the connection to
    [disconnected]) and the coroutine runs to its next suspension or
    returns; [connect] appends after [await websocket.accept()];
    [websocket_endpoint] calls [manager.disconnect]. *)
Inductive CEvent :=
| EBroadcast (message : Message)
| EResume (k : nat)
| EConnect (c : nat)
| EDisconnect (c : nat).

Definition cstep (ev : CEvent) (s : Conns) : Conns :=
  match ev with
  | EBroadcast m =>
      let r := loop_from m 0 [] (active_connections s) in
      mkConns r.2 (btasks s ++ [r.1])%list (delivered s)
  | EResume k =>
      match btasks s !! k with
      | Some (BAwait m i c d) =>
          let r := loop_from m i (if send_fails c m then d ++ [c] else d)%list
                     (active_connections s) in
          mkConns r.2 (<[k := r.1]> (btasks s))
                  (if send_fails c m then delivered s else delivered s ++ [(c, m)])%list
      | _ => s
      end
  | EConnect c => mkConns (active_connections s ++ [c])%list (btasks s) (delivered s)
  | EDisconnect c => mkConns (disconnect c (active_connections s)) (btasks s) (delivered s)
  end.

(** Events applied in order. *)
Fixpoint csched (evs : list CEvent) (s : Conns) : Conns :=
  match evs with
  | [] => s
  | ev :: evs' => csched evs' (cstep ev s)
  end.

(** [connect] registers a new websocket: every connection it appends is
    not registered at that moment. *)
Fixpoint connects_fresh (evs : list CEvent) (s : Conns) : Prop :=
  match evs with
  | [] => True
  | ev :: evs' =>
      match ev with
      | EConnect c => ~ In c (active_connections s)
      | _ => True
      end /\ connects_fresh evs' (cstep ev s)
  end.

(** A broadcast with no other event while it is suspended: it starts and
    is resumed once per connection of the list. *)
Definition solo_events (m : Message) (s : Conns) : list CEvent :=
  EBroadcast m :: repeat (EResume (length (btasks s))) (length (active_connections s)).

(** Broadcasts one after the other, each with no other event while it is
    suspended. *)
Fixpoint solo_all (ms : list Message) (s : Conns) : Conns :=
  match ms with
  | [] => s
  | m :: ms' => solo_all ms' (csched (solo_events m s) s)
  end.

End Coroutines.

Arguments BAwait {Message}.
Arguments BDone {Message}.
Arguments mkConns {Message}.
Arguments active_connections {Message}.
Arguments btasks {Message}.
Arguments delivered {Message}.
Arguments EBroadcast {Message}.
Arguments EResume {Message}.
Arguments EConnect {Message}.
Arguments EDisconnect {Message}.
Arguments loop_from {Message}.
Arguments cstep {Message}.
Arguments csched {Message}.
Arguments connects_fresh {Message}.
Arguments solo_events {Message}.
Arguments solo_all {Message}.

(** A stage that returns an empty dict without reporting. *)
Definition stage_noop : Stage := fun _ => ([], inr ∅).

(** The callback, when there is one, returns normally on the events
    satisfying [P]. *)
Definition callback_returns_on (P : AgentProgress -> Prop) (cb : option Callback) : Prop :=
  match cb with
  | None => True
  | Some f => forall ev, P ev -> f ev = None
  end.

(** The events the engine hands to the callback for a stage's reports. *)
Definition reported (cb : option Callback) (wid : string) (l : list Report)
    : list AgentProgress :=
  match cb with
  | None => []
  | Some _ => map (fun r => match r with
                            | (ag, msg, p) => mkAgentProgress wid ag msg p false
                            end) l
  end.

(** A stage run signals an error: it raises [m], or it returns a dict whose
    [error] entry is truthy and renders as [m]. *)
Definition stage_error (r : StageRun) (m : string) : Prop :=
  r.2 = inl m \/
  exists d, r.2 = inr d /\ truthy (dict_get d "error") = true /\
            m = py_str (dict_get d "error").

(** [R] holds between every two successive elements. *)
Fixpoint consecutive {A} (R : A -> A -> Prop) (l : list A) : Prop :=
  match l with
  | x :: ((y :: _) as l') => R x y /\ consecutive R l'
  | _ => True
  end.

Definition is_terminal (o : option value) : Prop :=
  o = Some (VStr "completed") \/ o = Some (VStr "failed").

(** The transitions of [current_step] the specification allows, with its
    steps step_1, step_2, step_3 named by the stage labels of
    workflow_state.py ([jira_analyst], [tech_architect],
    [product_manager]); equal values are no transition. *)
Definition spec_edge (x y : option value) : Prop :=
  x = y \/
  (x = Some (VStr "queued") /\ y = Some (VStr "jira_analyst")) \/
  (x = Some (VStr "jira_analyst") /\ y = Some (VStr "tech_architect")) \/
  (x = Some (VStr "tech_architect") /\ y = Some (VStr "product_manager")) \/
  (x = Some (VStr "product_manager") /\ y = Some (VStr "completed")) \/
  (~ is_terminal x /\ y = Some (VStr "failed")).

(** Two successive snapshots of the dict: [current_step] stays, or goes
    from [jira_analyst] to a terminal value; from a terminal value, only
    [currentAgent] may change. *)
Definition code_edge (a b : WorkflowState) : Prop :=
  (a !! "current_step" = b !! "current_step" \/
   (a !! "current_step" = Some (VStr "jira_analyst") /\
    is_terminal (b !! "current_step"))) /\
  (is_terminal (a !! "current_step") ->
   forall k, k <> "currentAgent" -> a !! k = b !! k).

(** Two successive snapshots of the dict, whatever the callback does:
    [current_step] stays, goes from [jira_analyst] to a terminal value, or
    goes from [completed] to [failed]. *)
Definition step_edge (a b : WorkflowState) : Prop :=
  a !! "current_step" = b !! "current_step" \/
  (a !! "current_step" = Some (VStr "jira_analyst") /\ is_terminal (b !! "current_step")) \/
  (a !! "current_step" = Some (VStr "completed") /\ b !! "current_step" = Some (VStr "failed")).

(** A callback that raises on the engine's first completion event. *)
Definition cb_raise_on_completion : Callback :=
  fun ev => if completed ev then Some "client gone"%string else None.

(** Collaborators for concrete runs of the Jira analyst: the ticket is
    found, the Excel export and the HSD ticket creation both fail. *)
Definition ticket_abc : JiraTicketData :=
  mkJiraTicketData "ABC-1" (VStr "Add login") (VObj true "{'key': 'ABC-1'}").
Definition analyst_abc : Stage :=
  jira_analyst_execute (fun _ => inr ticket_abc) (fun _ _ => inl "no export")
    (fun _ => false) (fun _ => inl "no HSD").

(** A callback that always returns normally. *)
Definition cb_ok : Callback := fun _ => None.

(** A stage that reports once and returns an error result. *)
Definition stage_fail : Stage :=
  fun _ => ([("jira-analyst", "Starting ticket data fetch...", 10%Z)],
            inr {["error" := VStr "ticket not found"]}).

(** A run of the engine: two starts, one execution, three cleanups
    (one repeated, one of an unknown identifier). *)
Definition ops_demo : list Op :=
  [OpStart "wf-1" "ABC-1" "2024-01-01T00:00:00" None;
   OpStart "wf-2" "ABC-2" "2024-01-01T00:00:01" (Some cb_ok);
   OpRun "wf-1"; OpCleanup "wf-1"; OpCleanup "wf-1"; OpCleanup "wf-3"].

(** A stage returning [{"x": 1}] without reporting. *)
Definition stage_x : Stage := fun _ => ([], inr {["x" := VObj true "1"]}).

(** ** Counting operations *)

Definition is_start (op : Op) : bool :=
  match op with OpStart _ _ _ _ => true | _ => false end.
Definition is_cleanup (op : Op) : bool :=
  match op with OpCleanup _ => true | _ => false end.

Definition count_starts (ops : list Op) : nat := length (List.filter is_start ops).
Definition count_cleanups (ops : list Op) : nat := length (List.filter is_cleanup ops).

(** Cleanups whose identifier was in the store when they ran. *)
Fixpoint count_removals (jira_analyst : Stage) (ops : list Op) (e : Engine) : nat :=
  match ops with
  | [] => 0
  | op :: ops' =>
      (match op with
       | OpCleanup wid => if decide (is_Some (active_workflows e !! wid)) then 1 else 0
       | _ => 0
       end) + count_removals jira_analyst ops' (step jira_analyst op e)
  end.

(** Every [start_workflow] draws an identifier absent from the store
    (what [uuid.uuid4()] provides). *)
Fixpoint fresh_starts (jira_analyst : Stage) (ops : list Op) (e : Engine) : Prop :=
  match ops with
  | [] => True
  | op :: ops' =>
      (match op with
       | OpStart wid _ _ _ => active_workflows e !! wid = None
       | _ => True
       end) /\ fresh_starts jira_analyst ops' (step jira_analyst op e)
  end.

(** ** [JiraClient.get_ticket] (jira_client.py) *)

(** [await self._fetch_real_ticket(ticket_id)] together with the logging
    of a fetched ticket: raises, returns [None], or returns a ticket (a
    dataclass instance, always truthy). *)
Definition jira_get_ticket (fetch_real_ticket : value -> string + option JiraTicketData)
    (ticket_id : value) : string + JiraTicketData :=
  match fetch_real_ticket ticket_id with
  | inr (Some ticket_data) => inr ticket_data
  | inr None =>
      inl ("Unable to fetch Jira ticket " ++ py_str ticket_id ++ ": " ++
           ("Unable to fetch Jira ticket " ++ py_str ticket_id ++ " - API request failed"))
  | inl e => inl ("Unable to fetch Jira ticket " ++ py_str ticket_id ++ ": " ++ e)
  end.

(** [_fetch_real_ticket] catches every [Exception] and returns [None]
    instead, so it returns [None] or a ticket; the logging block of
    [get_ticket] that follows a fetched ticket raises [Some e] (for
    instance [ticket_data.issuetype.get] when the ticket's [issuetype] is
    [None]) or completes.  Their composition is the argument of
    [jira_get_ticket]. *)
Definition fetch_and_log (fetch_real_ticket : value -> option JiraTicketData)
    (log_ticket_details : JiraTicketData -> option string) (ticket_id : value)
    : string + option JiraTicketData :=
  match fetch_real_ticket ticket_id with
  | None => inr None
  | Some ticket_data =>
      match log_ticket_details ticket_data with
      | Some e => inl e
      | None => inr (Some ticket_data)
      end
  end.

(** ** The later agents (agents.py): [execute] up to its precondition,
    and its [except] clause *)

Section LaterAgents.

(** [if progress_callback: await progress_callback(agent, message, p)] *)
Variable progress_callback : Report -> M unit.

(** The rest of [TechnicalArchitectAgent.execute] after the check on
    [jira_ticket_data] (the reports at 40, 70 and 100, the LLM chain, the
    parsing and the diagram): raises, or the returned dict. *)
Variable architect_rest : WorkflowState -> M WorkflowState.

Definition technical_architect_execute (state : WorkflowState) : M WorkflowState :=
  try_except
    (do! progress_callback ("tech-architect", "Starting impact analysis...", 20%Z) in
     if negb (truthy (dict_get state "jira_ticket_data"))
     then raise "Jira ticket data not available"
     else architect_rest state)
    (fun error => ret {["error" := VStr ("TechnicalArchitectAgent failed: " ++ error)]}).

(** The rest of [ProductManagerAgent.execute] after its check. *)
Variable product_manager_rest : WorkflowState -> M WorkflowState.

(** [all(key in state for key in [...])] *)
Definition prd_inputs_present (state : WorkflowState) : bool :=
  forallb (fun k => bool_decide (is_Some (state !! k)))
    ["jira_ticket_data"; "impact_analysis"; "solution_architecture"].

Definition product_manager_execute (state : WorkflowState) : M WorkflowState :=
  try_except
    (do! progress_callback ("product-manager", "Starting PRD generation...", 20%Z) in
     if negb (prd_inputs_present state)
     then raise "Required data not available for PRD generation"
     else product_manager_rest state)
    (fun error => ret {["error" := VStr ("ProductManagerAgent failed: " ++ error)]}).

End LaterAgents.

(** ** The HTTP server (main.py) *)

(** The JSON dicts the server broadcasts. *)
Abbreviation JsonDict := (gmap string value).

(** [ConnectionManager.connect]: [await websocket.accept()] (which raises
    [Some e] or returns [None]), then append. *)
Definition connect (accept : nat -> option string) (c : nat) (active_connections : list nat)
    : string + list nat :=
  match accept c with
  | Some e => inl e
  | None => inr (active_connections ++ [c])%list
  end.

(** The message broadcast by the endpoint's [progress_callback]; an [int]
    is truthy when non-zero and renders in decimal. *)
Definition progress_message (ev : AgentProgress) : JsonDict :=
  <["completed" := VBool (completed ev)]>
  (<["progress" := VObj (bool_decide (progress ev <> 0%Z)) (pretty (progress ev))]>
  (<["message" := VStr (message ev)]>
  (<["agent" := VStr (agent ev)]>
  (<["workflow_id" := VStr (workflow_id ev)]>
  {["type" := VStr "agent_progress"]})))).

(** The endpoint's [progress_callback] seen from the engine: it awaits
    [manager.broadcast], which never raises, so it always returns
    normally.  Its effect on the connection list is the broadcast of
    [progress_message ev]. *)
Definition server_progress_callback : Callback := fun _ => None.

Definition started_message (workflow_id jira_ticket_id : string) : JsonDict :=
  <["engine_type" := VStr "python-langchain"]>
  (<["jira_ticket_id" := VStr jira_ticket_id]>
  (<["workflow_id" := VStr workflow_id]>
  {["type" := VStr "python_workflow_started"]})).

(** The server: the engine and the [ConnectionManager]'s list.  The list
    is updated as by broadcasts that run without interleaving ([broadcast],
    [broadcast_all]); the concurrent behaviour of the list is the
    coroutine model [csched].  No property of the engine or of the HTTP
    responses below depends on the list. *)
Record Server := mkServer {
  engine : Engine;
  connections : list nat
}.

Inductive HttpResult (A : Type) :=
| HttpOk (body : A)
| HttpError (status_code : Z) (detail : string).
Arguments HttpOk {A}.
Arguments HttpError {A}.

(** workflow_state.py, class [WorkflowResponse] *)
Record WorkflowResponse := mkWorkflowResponse {
  resp_workflow_id : string;
  resp_status : string;
  resp_message : string;
  resp_current_step : option string;
  resp_error : option string
}.

Section Endpoints.

(** [await connection.send_text(json.dumps(message))] raises. *)
Variable send_fails : nat -> JsonDict -> bool.

(** [POST /workflow/start]: [workflow_id] and [now] are the engine's
    [uuid4] and timestamp.  Neither [start_workflow] nor [broadcast]
    raises, so the [except] (HTTP 500) is never taken. *)
Definition http_start_workflow (workflow_id now jira_ticket_id : string) (s : Server)
    : Server * HttpResult WorkflowResponse :=
  let r := start_workflow workflow_id jira_ticket_id now
             (Some server_progress_callback) (engine s) in
  let b := broadcast JsonDict send_fails (started_message r.2 jira_ticket_id)
             (connections s) in
  (mkServer r.1 b.2,
   HttpOk (mkWorkflowResponse r.2 "started"
             ("Python LangChain workflow started for " ++ jira_ticket_id)
             (Some "jira_analyst") None)).

(** The event loop runs the [_execute_workflow] task of [workflow_id] to
    its end, the workflows of the server being started by
    [http_start_workflow]: every event handed to the callback is broadcast,
    in order. *)
Definition server_run (jira_analyst : Stage) (workflow_id : string) (s : Server) : Server :=
  let e := engine s in
  if decide (workflow_id ∈ tasks e) then
    let r := execute_workflow jira_analyst workflow_id
               (mkEngine (active_workflows e) (progress_callbacks e)
                         (remove_first workflow_id (tasks e))) in
    let conns := match r.2 with
                 | Some (w, _) =>
                     (broadcast_all JsonDict send_fails
                        (map progress_message (w_events w)) (connections s)).2
                 | None => connections s
                 end in
    mkServer r.1 conns
  else s.

End Endpoints.

(** The body of [GET /workflow/{workflow_id}]. *)
Record StatusBody := mkStatusBody {
  sb_workflow_id : string;
  sb_status : value;
  sb_state : WorkflowState
}.

(** [GET /workflow/{workflow_id}]: [if not state] is true for [None] and
    for an empty dict. *)
Definition http_get_workflow_status (workflow_id : string) (s : Server)
    : HttpResult StatusBody :=
  match get_workflow_status workflow_id (engine s) with
  | None => HttpError 404 "Workflow not found"
  | Some state =>
      if decide (state = ∅) then HttpError 404 "Workflow not found"
      else HttpOk (mkStatusBody workflow_id
                     (default (VStr "unknown") (state !! "current_step")) state)
  end.

(** ** Runs of the execution tasks *)

(** The [OpRun wid] operations that find a pending task of [wid]. *)
Fixpoint count_runs (jira_analyst : Stage) (wid : string) (ops : list Op) (e : Engine) : nat :=
  match ops with
  | [] => 0
  | op :: ops' =>
      (match op with
       | OpRun w => if String.eqb w wid && bool_decide (w ∈ tasks e) then 1 else 0
       | _ => 0
       end) + count_runs jira_analyst wid ops' (step jira_analyst op e)
  end.

Definition count_starts_of (wid : string) (ops : list Op) : nat :=
  length (List.filter (fun op => match op with
                                 | OpStart w _ _ _ => String.eqb w wid
                                 | _ => false
                                 end) ops).

(** ** Python strings as lists of code points *)

Abbreviation pystr := (list Z).

Definition pystr_of_string (s : string) : pystr :=
  map (fun a => Z.of_nat (Ascii.nat_of_ascii a)) (String.list_ascii_of_string s).

(** [str.isspace] of one character. *)
Definition py_isspace (c : Z) : bool :=
  (((9 <=? c) && (c <=? 13)) || ((28 <=? c) && (c <=? 32)) || (c =? 133) ||
   (c =? 160) || (c =? 5760) || ((8192 <=? c) && (c <=? 8202)) || (c =? 8232) ||
   (c =? 8233) || (c =? 8239) || (c =? 8287) || (c =? 12288))%Z.

(** [s.lstrip()] *)
Fixpoint py_lstrip (s : pystr) : pystr :=
  match s with
  | [] => []
  | c :: s' => if py_isspace c then py_lstrip s' else s
  end.

(** [s.strip()] *)
Definition py_strip (s : pystr) : pystr := rev (py_lstrip (rev (py_lstrip s))).

(** [s.startswith(p)] *)
Fixpoint starts_with (p s : pystr) : bool :=
  match p, s with
  | [], _ => true
  | x :: p', y :: s' => Z.eqb x y && starts_with p' s'
  | _ :: _, [] => false
  end.

(** The text before the first occurrence of [sep] and the text after it. *)
Fixpoint split_first (sep s : pystr) : option (pystr * pystr) :=
  if starts_with sep s then Some ([], drop (length sep) s) else
  match s with
  | [] => None
  | c :: s' =>
      match split_first sep s' with
      | Some (b, a) => Some (c :: b, a)
      | None => None
      end
  end.

Fixpoint py_split_fuel (fuel : nat) (sep s : pystr) : list pystr :=
  match fuel with
  | O => [s]
  | S f =>
      match split_first sep s with
      | None => [s]
      | Some (b, a) => b :: py_split_fuel f sep a
      end
  end.

(** [s.split(sep)] for a non-empty [sep]: each split consumes at least one
    character, so [length s + 1] rounds suffice. *)
Definition py_split (sep s : pystr) : list pystr := py_split_fuel (S (length s)) sep s.

Fixpoint py_replace_fuel (fuel : nat) (old new s : pystr) : pystr :=
  match fuel with
  | O => s
  | S f =>
      match split_first old s with
      | None => s
      | Some (b, a) => b ++ new ++ py_replace_fuel f old new a
      end
  end.

(** [s.replace(old, new)] for a non-empty [old]. *)
Definition py_replace (old new s : pystr) : pystr :=
  py_replace_fuel (S (length s)) old new s.

(** ** [TechnicalArchitectAgent._parse_architect_response] (agents.py) *)

Record ArchitectSections := mkArchitectSections {
  impact_analysis : pystr;
  solution_architecture : pystr
}.

Definition parse_architect_response (response : pystr) : ArchitectSections :=
  let sections := py_split (pystr_of_string "## Solution Architecture") response in
  let impact := py_strip (py_replace (pystr_of_string "## Impact Analysis") []
                                     (nth 0 sections [])) in
  let solution := if (1 <? length sections)%nat
                  then py_strip (pystr_of_string "## Solution Architecture" ++
                                 nth 1 sections [])
                  else [] in
  mkArchitectSections impact solution.

(** ** [TicketDocumentManager._sanitize_filename] (ticket_document_manager.py) *)

(** The character class of the [re.sub]: [<], [>], [:], the double quote,
    [/], the backslash, [|], [?] and [*]. *)
Definition unsafe_char (c : Z) : bool :=
  existsb (Z.eqb c) [60; 62; 58; 34; 47; 92; 124; 63; 42]%Z.

(** The [re.sub] of [_sanitize_filename]: every unsafe character becomes
    [_]. *)
Definition replace_unsafe (filename : pystr) : pystr :=
  map (fun c => if unsafe_char c then 95%Z else c) filename.

(** The index of the last occurrence of [x]. *)
Fixpoint rfind (x : Z) (s : pystr) : option nat :=
  match s with
  | [] => None
  | c :: s' =>
      match rfind x s' with
      | Some i => Some (S i)
      | None => if Z.eqb c x then Some 0 else None
      end
  end.

(** [s.rfind(x)] *)
Definition py_rfind (x : Z) (s : pystr) : Z :=
  match rfind x s with Some i => Z.of_nat i | None => (-1)%Z end.

(** [os.path.splitext] ([posixpath], separator [/], extension
    separator [.]): the [while] loop skips leading dots of the base name. *)
Definition splitext (p : pystr) : pystr * pystr :=
  let sepIndex := py_rfind 47 p in
  let dotIndex := py_rfind 46 p in
  if (sepIndex <? dotIndex)%Z then
    if existsb (fun c => negb (Z.eqb c 46))
         (take (Z.to_nat (dotIndex - (sepIndex + 1))) (drop (Z.to_nat (sepIndex + 1)) p))
    then (take (Z.to_nat dotIndex) p, drop (Z.to_nat dotIndex) p)
    else (p, [])
  else (p, []).

(** [s[:k]]: a negative [k] counts from the end. *)
Definition py_prefix (s : pystr) (k : Z) : pystr :=
  if (0 <=? k)%Z then take (Z.to_nat k) s
  else take (Z.to_nat (Z.of_nat (length s) + k)) s.

Definition sanitize_filename (filename : pystr) : pystr :=
  let safe_filename := replace_unsafe filename in
  if (200 <? length safe_filename)%nat then
    let '(name, ext) := splitext safe_filename in
    py_prefix name (200 - Z.of_nat (length ext)) ++ ext
  else safe_filename.

(** ** [SimpleVectorStore] (vector_store.py): the document store *)

Record Document := mkDocument {
  doc_id : string;
  content : string;
  doc_metadata : gmap string value;
  embedding : option value
}.

(** The vectorizer and the document vectors are left out: [add_document]
    and [get_document_count] do not read them. *)
Record VectorStore := mkVectorStore {
  documents : gmap string Document;
  fitted : bool
}.

Definition add_document (doc_id : string) (content : string)
    (metadata : option (gmap string value)) (vs : VectorStore) : VectorStore :=
  let metadata := default ∅ metadata in
  mkVectorStore (<[doc_id := mkDocument doc_id content metadata None]> (documents vs)) false.

Definition get_document_count (vs : VectorStore) : nat := size (documents vs).

(** [for doc in docs: store.add_document(doc["id"], doc["content"], doc["metadata"])] *)
Definition add_documents (docs : list (string * string * option (gmap string value)))
    (vs : VectorStore) : VectorStore :=
  fold_left (fun vs '(i, c, m) => add_document i c m vs) docs vs.

(** ** Events added by a computation *)

(** [m] adds only events satisfying [P]. *)
Definition keeps_events (P : AgentProgress -> Prop) {A} (m : M A) : Prop :=
  forall w, Forall P (w_events w) -> Forall P (w_events (m w).1).

(** ** Engine-level lemmas *)

Lemma execute_workflow_active (jira_analyst : Stage) wid e :
  exists s, active_workflows (execute_workflow jira_analyst wid e).1 =
            match active_workflows e !! wid with
            | Some _ => <[wid := s]> (active_workflows e)
            | None => active_workflows e
            end.
Proof.
  unfold execute_workflow.
  destruct (active_workflows e !! wid) as [st|] eqn:Hl; [|by exists ∅].
  case_decide; simpl.
  - subst. exists ∅. by rewrite insert_id.
  - eexists. reflexivity.
Qed.

Lemma execute_workflow_callbacks (jira_analyst : Stage) wid e :
  progress_callbacks (execute_workflow jira_analyst wid e).1 = progress_callbacks e.
Proof.
  unfold execute_workflow.
  destruct (active_workflows e !! wid); [case_decide|]; reflexivity.
Qed.

Lemma execute_workflow_dom (jira_analyst : Stage) wid e :
  dom (active_workflows (execute_workflow jira_analyst wid e).1) =
  dom (active_workflows e).
Proof.
  destruct (execute_workflow_active jira_analyst wid e) as [s ->].
  destruct (active_workflows e !! wid) eqn:Hl; [|done].
  rewrite dom_insert_L. apply elem_of_dom_2 in Hl. set_solver.
Qed.

(** The set of workflow ids with a callback stays within the store. *)
Lemma step_callbacks_subset (jira_analyst : Stage) op e :
  dom (progress_callbacks e) ⊆ dom (active_workflows e) ->
  dom (progress_callbacks (step jira_analyst op e)) ⊆
  dom (active_workflows (step jira_analyst op e)).
Proof.
  intros H. destruct op as [wid tid now [f|]|wid|wid]; simpl.
  - rewrite !dom_insert_L. set_solver.
  - rewrite dom_insert_L. set_solver.
  - case_decide; [|done].
    rewrite execute_workflow_dom, execute_workflow_callbacks. done.
  - unfold cleanup_workflow; simpl.
    destruct (decide (is_Some (active_workflows e !! wid)));
      destruct (decide (is_Some (progress_callbacks e !! wid))); simpl;
      rewrite ?dom_delete_L; rewrite <-?elem_of_dom in *; set_solver.
Qed.

Lemma run_ops_callbacks_subset (jira_analyst : Stage) ops e :
  dom (progress_callbacks e) ⊆ dom (active_workflows e) ->
  dom (progress_callbacks (run_ops jira_analyst ops e)) ⊆
  dom (active_workflows (run_ops jira_analyst ops e)).
Proof.
  revert e. induction ops as [|op ops IH]; intros e H; simpl; [done|].
  apply IH. by apply step_callbacks_subset.
Qed.

Lemma size_delete_present {A} (m : gmap string A) i :
  is_Some (m !! i) -> size m = S (size (delete i m)).
Proof.
  intros [y Hy].
  rewrite <-(map_size_insert_None i y (delete i m)) by apply lookup_delete_eq.
  by rewrite insert_delete_id.
Qed.

Lemma step_size (jira_analyst : Stage) op e :
  (match op with
   | OpStart wid _ _ _ => active_workflows e !! wid = None
   | _ => True
   end) ->
  size (active_workflows (step jira_analyst op e)) +
  (match op with
   | OpCleanup wid => if decide (is_Some (active_workflows e !! wid)) then 1 else 0
   | _ => 0
   end) =
  size (active_workflows e) + (if is_start op then 1 else 0).
Proof.
  intros Hf. destruct op as [wid tid now cb|wid|wid]; simpl.
  - destruct cb; simpl; rewrite map_size_insert_None by done; lia.
  - case_decide; [|lia].
    destruct (execute_workflow_active jira_analyst wid
                (mkEngine (active_workflows e) (progress_callbacks e)
                          (remove_first wid (tasks e)))) as [s ->]; simpl.
    destruct (active_workflows e !! wid) eqn:Hl; [|lia].
    rewrite map_size_insert_Some by (rewrite Hl; eauto). lia.
  - unfold cleanup_workflow; simpl.
    case_decide as Hp; [|lia].
    rewrite (size_delete_present (active_workflows e) wid Hp). lia.
Qed.

Lemma run_ops_size (jira_analyst : Stage) ops e :
  fresh_starts jira_analyst ops e ->
  size (active_workflows (run_ops jira_analyst ops e)) +
  count_removals jira_analyst ops e =
  size (active_workflows e) + count_starts ops.
Proof.
  unfold count_starts.
  revert e. induction ops as [|op ops IH]; intros e Hfr; simpl; [lia|].
  destruct Hfr as [Hf Hfs].
  specialize (IH _ Hfs). pose proof (step_size jira_analyst op e Hf) as Hs.
  destruct op; simpl in *; lia.
Qed.

(** ** C2: [start_workflow] does not validate the ticket id *)

(** C2 (counterexample): an empty ticket id is not rejected: the workflow
    is created and its execution task scheduled. *)
Lemma start_workflow_empty_ticket_accepted :
  let r := start_workflow "wf-1" "" "2024-01-01T00:00:00" None engine_init in
  get_workflow_status r.2 r.1 = Some (initial_state "" "2024-01-01T00:00:00") /\
  tasks r.1 = ["wf-1"].
Proof. split; reflexivity. Qed.

(** C2 (amended): for every ticket id, including the empty one,
    [start_workflow] returns the fresh identifier after inserting the
    initial state, registering the callback when one is given, and
    scheduling exactly one execution task; it has no failing path. *)
Theorem start_workflow_never_rejects (workflow_id jira_ticket_id now : string)
    (cb : option Callback) (e : Engine) :
  let r := start_workflow workflow_id jira_ticket_id now cb e in
  r.2 = workflow_id /\
  active_workflows r.1 =
    <[workflow_id := initial_state jira_ticket_id now]> (active_workflows e) /\
  progress_callbacks r.1 =
    match cb with
    | Some f => <[workflow_id := f]> (progress_callbacks e)
    | None => progress_callbacks e
    end /\
  tasks r.1 = (tasks e ++ [workflow_id])%list.
Proof. simpl. repeat split. Qed.

(** ** C4: the new workflow is visible before its identifier is returned *)

(** C4: [start_workflow] inserts the initial state (current step
    [jira_analyst], the first stage, and agent [jira-analyst]) into the
    store it returns, so [get_workflow_status] on the returned identifier
    finds it. *)
Theorem start_workflow_then_status (workflow_id jira_ticket_id now : string)
    (cb : option Callback) (e : Engine) :
  let r := start_workflow workflow_id jira_ticket_id now cb e in
  get_workflow_status r.2 r.1 = Some (initial_state jira_ticket_id now) /\
  initial_state jira_ticket_id now !! "current_step" = Some (VStr "jira_analyst") /\
  initial_state jira_ticket_id now !! "currentAgent" = Some (VStr "jira-analyst").
Proof.
  simpl. unfold get_workflow_status; simpl.
  split; [by rewrite lookup_insert_eq|].
  unfold initial_state. split; reflexivity.
Qed.

(** ** C8: cleanup *)

(** C8: in every reachable engine, after [cleanup_workflow wid] the status
    query for [wid] answers not-found, other workflows are untouched, and
    the cleanup of an identifier absent from the store changes nothing. *)
Theorem cleanup_workflow_removes (jira_analyst : Stage) (ops : list Op) (wid : string) :
  let e := run_ops jira_analyst ops engine_init in
  get_workflow_status wid (cleanup_workflow wid e) = None /\
  (forall wid', wid' <> wid ->
     get_workflow_status wid' (cleanup_workflow wid e) = get_workflow_status wid' e) /\
  (get_workflow_status wid e = None -> cleanup_workflow wid e = e).
Proof.
  intros e.
  assert (Hsub : dom (progress_callbacks e) ⊆ dom (active_workflows e)).
  { apply run_ops_callbacks_subset. simpl. set_solver. }
  unfold get_workflow_status, cleanup_workflow; simpl.
  split; [|split].
  - case_decide as H; [by rewrite lookup_delete_eq|].
    destruct (active_workflows e !! wid) eqn:Hl; [destruct H; eauto|done].
  - intros wid' Hne. case_decide; [|done]. by rewrite lookup_delete_ne.
  - intros Hnone. rewrite Hnone.
    rewrite decide_False by (intros [? ?]; discriminate).
    rewrite decide_False.
    + by destruct e.
    + intros Hs. apply elem_of_dom in Hs. apply Hsub in Hs.
      apply elem_of_dom in Hs. rewrite Hnone in Hs. by destruct Hs.
Qed.

(** ** C9: number of listed workflows *)

(** C9 (counterexample): a cleanup of an unknown identifier is counted
    as a cleanup call but removes nothing, so the listed count is not
    starts minus cleanups. *)
Lemma get_all_workflows_count_cleanup_absent :
  let ops := [OpCleanup "wf-1"] in
  Z.of_nat (size (get_all_workflows (run_ops stage_noop ops engine_init))) <>
  (Z.of_nat (count_starts ops) - Z.of_nat (count_cleanups ops))%Z.
Proof. simpl. vm_compute. discriminate. Qed.

(** C9 (amended): when every start draws an identifier absent from the
    store, the listed count equals the number of [start_workflow] calls
    minus the number of [cleanup_workflow] calls whose identifier was in
    the store. *)
Theorem get_all_workflows_count (jira_analyst : Stage) (ops : list Op) :
  fresh_starts jira_analyst ops engine_init ->
  size (get_all_workflows (run_ops jira_analyst ops engine_init)) =
  count_starts ops - count_removals jira_analyst ops engine_init /\
  count_removals jira_analyst ops engine_init <= count_starts ops.
Proof.
  intros Hf. pose proof (run_ops_size jira_analyst ops engine_init Hf) as H.
  unfold get_all_workflows. simpl in H. rewrite map_size_empty in H. lia.
Qed.

(** ** C10: callbacks only for stored workflows *)

(** C10: in every reachable engine the identifiers with a registered
    progress callback all have a stored state. *)
Theorem progress_callbacks_within_store (jira_analyst : Stage) (ops : list Op) :
  let e := run_ops jira_analyst ops engine_init in
  dom (progress_callbacks e) ⊆ dom (active_workflows e).
Proof. apply run_ops_callbacks_subset. simpl. set_solver. Qed.

(** ** The driver *)

Lemma report_all_spec (cb : option Callback) (wid : string) (l : list Report) (w : World) :
  callback_returns_on (fun ev => completed ev = false) cb ->
  report_all (analyst_progress cb wid) l w =
  (mkWorld (w_state w) (w_trace w) (w_events w ++ reported cb wid l) (w_stages w), inr tt).
Proof.
  intros Hcb. revert w. induction l as [|[[ag msg] p] l IH]; intros w; simpl.
  - destruct cb; simpl; rewrite app_nil_r; by destruct w.
  - unfold bind. destruct cb as [f|]; simpl in *.
    + rewrite Hcb by reflexivity. rewrite IH. simpl. by rewrite <-app_assoc.
    + unfold ret. rewrite IH. done.
Qed.

Lemma run_driver_error (stage : Stage) (cb : option Callback) (wid : string)
    (s0 : WorkflowState) (m : string) :
  callback_returns_on (fun ev => completed ev = false) cb ->
  stage_error (stage s0) m ->
  let r := run_driver stage cb wid s0 in
  w_state r.1 = <["current_step" := VStr "failed"]> (<["error" := VStr m]> s0) /\
  w_stages r.1 = ["jira-analyst"] /\
  w_events r.1 =
    (reported cb wid (stage s0).1 ++
     match cb with
     | Some _ => [mkAgentProgress wid "workflow" ("Workflow failed: " ++ m) 100 true]
     | None => []
     end)%list.
Proof.
  intros Hcb Herr.
  unfold run_driver, execute_body, invoke_stage, run_stage, world0.
  unfold try_except, bind; simpl.
  rewrite report_all_spec by done. simpl.
  unfold stage_error in Herr.
  destruct (stage s0) as [reps out]; simpl in *.
  destruct Herr as [-> | (d & -> & Ht & ->)]; simpl.
  - unfold set_key; simpl. destruct cb as [f|]; simpl; [destruct (f _)|]; simpl; auto.
  - rewrite Ht. unfold raise, set_key; simpl.
    destruct cb as [f|]; simpl; [destruct (f _)|]; simpl; auto.
Qed.

Lemma report_all_frame (cb : option Callback) (wid : string) (l : list Report) (w : World) :
  let r := report_all (analyst_progress cb wid) l w in
  w_state r.1 = w_state w /\ w_trace r.1 = w_trace w /\ w_stages r.1 = w_stages w.
Proof.
  revert w. induction l as [|[[ag msg] p] l IH]; intros w; simpl; [done|].
  unfold bind. destruct cb as [f|]; simpl.
  - destruct (f _); simpl; [done|].
    destruct (IH (mkWorld (w_state w) (w_trace w)
                    (w_events w ++ [mkAgentProgress wid ag msg p false])
                    (w_stages w))) as (H1 & H2 & H3).
    simpl in *. auto.
  - apply IH.
Qed.

Lemma run_driver_success (stage : Stage) (cb : option Callback) (wid : string)
    (s0 d : WorkflowState) :
  callback_returns_on (fun _ => True) cb ->
  (stage s0).2 = inr d ->
  truthy (dict_get d "error") = false ->
  let u := dict_update s0 d in
  let r := run_driver stage cb wid s0 in
  r.2 = inr tt /\
  w_trace r.1 =
    [u; <["currentAgent" := VStr "completed"]> u;
     <["current_step" := VStr "completed"]> (<["currentAgent" := VStr "completed"]> u);
     <["currentAgent" := VStr "completed"]>
       (<["current_step" := VStr "completed"]> (<["currentAgent" := VStr "completed"]> u))] /\
  w_state r.1 =
     <["currentAgent" := VStr "completed"]>
       (<["current_step" := VStr "completed"]> (<["currentAgent" := VStr "completed"]> u)) /\
  w_stages r.1 = ["jira-analyst"] /\
  w_events r.1 =
    (reported cb wid (stage s0).1 ++
     match cb with
     | Some _ =>
         [mkAgentProgress wid "jira-analyst"
            "Ticket data fetch and Excel export completed" 100 true;
          mkAgentProgress wid "workflow"
            "LangChain workflow completed successfully" 100 true]
     | None => []
     end)%list.
Proof.
  intros Hcb Hd Ht.
  assert (Hcb' : callback_returns_on (fun ev => completed ev = false) cb)
    by (destruct cb; simpl in *; auto).
  unfold run_driver, execute_body, invoke_stage, run_stage, world0.
  unfold try_except, bind; simpl.
  rewrite report_all_spec by done. simpl.
  destruct (stage s0) as [reps out]; simpl in *. subst out. simpl.
  rewrite Ht. unfold ret, set_key, update_state; simpl.
  destruct cb as [f|]; simpl.
  - rewrite !Hcb by done. simpl. rewrite <-!app_assoc. auto 10.
  - auto 10.
Qed.

(** Whatever the stage does, provided the callback returns normally on
    the engine's completion events, the snapshots of the dict form one of
    two sequences: the failure one or the success one. *)
Lemma run_driver_trace (stage : Stage) (cb : option Callback) (wid : string)
    (s0 : WorkflowState) :
  callback_returns_on (fun ev => completed ev = true) cb ->
  (exists m, w_trace (run_driver stage cb wid s0).1 =
     [<["error" := VStr m]> s0;
      <["current_step" := VStr "failed"]> (<["error" := VStr m]> s0)]) \/
  (exists d, (stage s0).2 = inr d /\
     let u := dict_update s0 d in
     w_trace (run_driver stage cb wid s0).1 =
     [u; <["currentAgent" := VStr "completed"]> u;
      <["current_step" := VStr "completed"]> (<["currentAgent" := VStr "completed"]> u);
      <["currentAgent" := VStr "completed"]>
        (<["current_step" := VStr "completed"]> (<["currentAgent" := VStr "completed"]> u))]).
Proof.
  intros Hcb.
  unfold run_driver, execute_body, invoke_stage, run_stage, world0.
  unfold try_except, bind; simpl.
  pose proof (report_all_frame cb wid (stage s0).1
                (mkWorld s0 [] [] ["jira-analyst"])) as Hfr.
  destruct (report_all (analyst_progress cb wid) (stage s0).1
              (mkWorld s0 [] [] ["jira-analyst"])) as [w1 [e1|[]]];
    simpl in Hfr; destruct Hfr as (Hs & Htr & _).
  - left. exists e1. unfold set_key; simpl. rewrite Hs, Htr.
    destruct cb as [f|]; simpl; [destruct (f _)|]; done.
  - destruct (stage s0) as [reps [e2|d]]; simpl.
    + left. exists e2. unfold raise, set_key; simpl. rewrite Hs, Htr.
      destruct cb as [f|]; simpl; [destruct (f _)|]; done.
    + destruct (truthy (dict_get d "error")); simpl.
      * left. eexists. unfold raise, set_key; simpl. rewrite Hs, Htr.
        destruct cb as [f|]; simpl; [destruct (f _)|]; done.
      * right. exists d. split; [done|]. unfold ret, set_key, update_state; simpl.
        rewrite Hs, Htr.
        destruct cb as [f|]; simpl; [rewrite !Hcb by done|]; done.
Qed.

Lemma insert_completed_twice (u : WorkflowState) :
  <["currentAgent" := VStr "completed"]>
    (<["current_step" := VStr "completed"]> (<["currentAgent" := VStr "completed"]> u)) =
  <["currentAgent" := VStr "completed"]> (<["current_step" := VStr "completed"]> u).
Proof.
  apply map_eq. intros k. rewrite !lookup_insert. repeat case_decide; congruence.
Qed.

Lemma execute_workflow_found (stage : Stage) wid e s0 :
  active_workflows e !! wid = Some s0 -> s0 <> ∅ ->
  execute_workflow stage wid e =
  (let r := run_driver stage (progress_callbacks e !! wid) wid s0 in
   (mkEngine (<[wid := w_state r.1]> (active_workflows e))
             (progress_callbacks e) (tasks e), Some r)).
Proof.
  intros Hl Hne. unfold execute_workflow. rewrite Hl.
  rewrite decide_False by done. reflexivity.
Qed.

(** ** C3: a stage error fails the workflow *)

(** C3: when the stage raises or returns a truthy [error], the stored
    state becomes the state the stage was given with [error] set to the
    message and [current_step] set to [failed]; no other key changes (none
    of the stage's returned keys is merged); only the first stage was
    invoked; and, when a callback is registered, the last event it is
    handed is the terminal one (progress 100, completed, message
    [Workflow failed: <error>]).  The callback is assumed to return
    normally on the stage's own reports (otherwise the error is the
    callback's). *)
Theorem execute_workflow_stage_error (stage : Stage) (wid : string) (e : Engine)
    (s0 : WorkflowState) (m : string) :
  active_workflows e !! wid = Some s0 -> s0 <> ∅ ->
  callback_returns_on (fun ev => completed ev = false) (progress_callbacks e !! wid) ->
  stage_error (stage s0) m ->
  let r := execute_workflow stage wid e in
  get_workflow_status wid r.1 =
    Some (<["current_step" := VStr "failed"]> (<["error" := VStr m]> s0)) /\
  (forall k, k <> "current_step" -> k <> "error" ->
     (get_workflow_status wid r.1 ≫= (fun s => s !! k)) = s0 !! k) /\
  exists w res, r.2 = Some (w, res) /\ w_stages w = ["jira-analyst"] /\
    (is_Some (progress_callbacks e !! wid) ->
     last (w_events w) =
       Some (mkAgentProgress wid "workflow" ("Workflow failed: " ++ m) 100 true)).
Proof.
  intros Hl Hne Hcb Herr. simpl. rewrite (execute_workflow_found stage wid e s0 Hl Hne).
  simpl.
  destruct (run_driver_error stage (progress_callbacks e !! wid) wid s0 m Hcb Herr)
    as (Hst & Hsg & Hev).
  destruct (run_driver stage (progress_callbacks e !! wid) wid s0) as [w res].
  simpl in *.
  unfold get_workflow_status; simpl. rewrite lookup_insert_eq, Hst.
  split; [done|]. split.
  - intros k H1 H2. simpl. rewrite !lookup_insert_ne by congruence. done.
  - eexists _, _. split; [reflexivity|]. split; [done|].
    intros [f Hf]. rewrite Hev, Hf. by rewrite last_app.
Qed.

(** ** C6: the pipeline stops after the first stage *)

(** C6 (counterexample): for ticket ABC-1 and a stage returning
    [{"x": 1}], the final dict is not the initial dict updated with
    [{"x": 1}]: [currentAgent] is [completed], not [jira-analyst]. *)
Lemma execute_workflow_not_plain_merge :
  let e := (start_workflow "wf-1" "ABC-1" "2024-01-01T00:00:00" None engine_init).1 in
  get_workflow_status "wf-1" (execute_workflow stage_x "wf-1" e).1 <>
  Some (dict_update (initial_state "ABC-1" "2024-01-01T00:00:00")
                    {["x" := VObj true "1"]}).
Proof.
  intros e H.
  apply (f_equal (fun o => o ≫= (fun s => s !! "currentAgent"))) in H.
  vm_compute in H. discriminate.
Qed.

(** C6 (amended): when the first stage returns without a truthy [error]
    and the callback, if any, returns normally, the run invokes only the
    first stage, ends normally, and stores the given dict updated with the
    stage's fields and then with [current_step] and [currentAgent] both
    set to [completed]. *)
Theorem execute_workflow_stage_success (stage : Stage) (wid : string) (e : Engine)
    (s0 d : WorkflowState) :
  active_workflows e !! wid = Some s0 -> s0 <> ∅ ->
  callback_returns_on (fun _ => True) (progress_callbacks e !! wid) ->
  (stage s0).2 = inr d ->
  truthy (dict_get d "error") = false ->
  let r := execute_workflow stage wid e in
  get_workflow_status wid r.1 =
    Some (<["currentAgent" := VStr "completed"]>
            (<["current_step" := VStr "completed"]> (dict_update s0 d))) /\
  exists w, r.2 = Some (w, inr tt) /\ w_stages w = ["jira-analyst"].
Proof.
  intros Hl Hne Hcb Hd Ht. simpl. rewrite (execute_workflow_found stage wid e s0 Hl Hne).
  simpl.
  destruct (run_driver_success stage (progress_callbacks e !! wid) wid s0 d Hcb Hd Ht)
    as (Hres & _ & Hst & Hsg & _).
  unfold get_workflow_status; simpl. rewrite lookup_insert_eq, Hst.
  rewrite insert_completed_twice. split; [done|].
  eexists. split; [|exact Hsg].
  destruct (run_driver stage (progress_callbacks e !! wid) wid s0) as [w r2].
  simpl in *. by subst.
Qed.

(** ** C7: merging a stage's result *)

(** C7: after a stage returns a dict without a truthy [error] (the callback
    returning normally on its reports), the first mutation of the state
    is [state.update(result)]: keys of the result overwrite, every other
    key keeps its value. *)
Theorem run_driver_merge (stage : Stage) (cb : option Callback) (wid : string)
    (s0 d : WorkflowState) :
  callback_returns_on (fun ev => completed ev = false) cb ->
  (stage s0).2 = inr d ->
  truthy (dict_get d "error") = false ->
  head (w_trace (run_driver stage cb wid s0).1) = Some (dict_update s0 d) /\
  forall k, dict_update s0 d !! k =
            match d !! k with Some v => Some v | None => s0 !! k end.
Proof.
  intros Hcb Hd Ht. split.
  - unfold run_driver, execute_body, invoke_stage, run_stage, world0.
    unfold try_except, bind; simpl.
    rewrite report_all_spec by done. simpl.
    destruct (stage s0) as [reps out]; simpl in *. subst out. simpl.
    rewrite Ht. unfold ret, set_key, update_state; simpl.
    destruct cb as [f|]; simpl; repeat (destruct (f _); simpl); reflexivity.
  - intros k. unfold dict_update. rewrite lookup_union.
    destruct (d !! k), (s0 !! k); reflexivity.
Qed.

(** ** C1: transitions of [current_step] *)

Ltac cs_lookup :=
  repeat first [rewrite lookup_insert_eq | rewrite lookup_insert_ne by discriminate].

Ltac forall_steps H1 H2 :=
  repeat (apply List.Forall_cons;
          [unfold is_terminal; cs_lookup; rewrite ?H1, ?H2;
           first [left; reflexivity | right; left; reflexivity | right; right; reflexivity]|]);
  apply List.Forall_nil.

Lemma code_edge_agent (a : WorkflowState) (v : value) :
  code_edge a (<["currentAgent" := v]> a).
Proof.
  unfold code_edge. rewrite lookup_insert_ne by discriminate. split; [by left|].
  intros _ k Hk. by rewrite lookup_insert_ne by congruence.
Qed.

Lemma code_edge_same_step (a : WorkflowState) (v : value) :
  a !! "current_step" = Some v -> code_edge a (<["current_step" := v]> a).
Proof.
  intros H. rewrite (insert_id a) by done. unfold code_edge. by split; [left|].
Qed.

Lemma code_edge_to_terminal (a : WorkflowState) (v : value) :
  a !! "current_step" = Some (VStr "jira_analyst") -> is_terminal (Some v) ->
  code_edge a (<["current_step" := v]> a).
Proof.
  intros H Ht. unfold code_edge. rewrite lookup_insert_eq, H.
  split; [by right|]. intros [Hc|Hc]; discriminate.
Qed.

Lemma code_edge_other (a : WorkflowState) (k : string) (v : value) :
  a !! "current_step" = Some (VStr "jira_analyst") -> k <> "current_step" ->
  code_edge a (<[k := v]> a).
Proof.
  intros H Hk. unfold code_edge. rewrite lookup_insert_ne by congruence.
  split; [by left|]. rewrite H. intros [Hc|Hc]; discriminate.
Qed.

Lemma jira_analyst_result_step get_ticket get_jira_details_to_excel path_exists
    create_hsd_ticket (s0 d : WorkflowState) :
  (jira_analyst_execute get_ticket get_jira_details_to_excel path_exists
     create_hsd_ticket s0).2 = inr d ->
  d !! "current_step" = Some (VStr "completed").
Proof.
  unfold jira_analyst_execute.
  destruct (get_ticket _); simpl; [discriminate|].
  intros H. injection H as <-. reflexivity.
Qed.

(** Whatever the stage and the callback do, the snapshots of the dict
    form one of four sequences: the stage failed; the callback raised on
    the first completion event; it raised on the second; or the run
    completed. *)
Lemma run_driver_trace_any (stage : Stage) (cb : option Callback) (wid : string)
    (s0 : WorkflowState) :
  (exists m, w_trace (run_driver stage cb wid s0).1 =
     [<["error" := VStr m]> s0;
      <["current_step" := VStr "failed"]> (<["error" := VStr m]> s0)]) \/
  (exists d, (stage s0).2 = inr d /\
     let u := dict_update s0 d in
     let u1 := <["currentAgent" := VStr "completed"]> u in
     let u2 := <["current_step" := VStr "completed"]> u1 in
     let u3 := <["currentAgent" := VStr "completed"]> u2 in
     (exists m, w_trace (run_driver stage cb wid s0).1 =
        [u; u1; <["error" := VStr m]> u1;
         <["current_step" := VStr "failed"]> (<["error" := VStr m]> u1)]) \/
     (exists m, w_trace (run_driver stage cb wid s0).1 =
        [u; u1; u2; u3; <["error" := VStr m]> u3;
         <["current_step" := VStr "failed"]> (<["error" := VStr m]> u3)]) \/
     w_trace (run_driver stage cb wid s0).1 = [u; u1; u2; u3]).
Proof.
  unfold run_driver, execute_body, invoke_stage, run_stage, world0.
  unfold try_except, bind; simpl.
  pose proof (report_all_frame cb wid (stage s0).1
                (mkWorld s0 [] [] ["jira-analyst"])) as Hfr.
  destruct (report_all (analyst_progress cb wid) (stage s0).1
              (mkWorld s0 [] [] ["jira-analyst"])) as [w1 [e1|[]]];
    simpl in Hfr; destruct Hfr as (Hs & Htr & _).
  - left. exists e1. unfold set_key; simpl. rewrite Hs, Htr.
    destruct cb as [f|]; simpl; [destruct (f _)|]; done.
  - destruct (stage s0) as [reps [e2|d]]; simpl.
    + left. exists e2. unfold raise, set_key; simpl. rewrite Hs, Htr.
      destruct cb as [f|]; simpl; [destruct (f _)|]; done.
    + destruct (truthy (dict_get d "error")); simpl.
      * left. eexists. unfold raise, set_key; simpl. rewrite Hs, Htr.
        destruct cb as [f|]; simpl; [destruct (f _)|]; done.
      * right. exists d. split; [done|]. cbv zeta.
        unfold ret, set_key, update_state; simpl. rewrite Hs, Htr.
        destruct cb as [f|]; simpl; [|by right; right].
        destruct (f (mkAgentProgress wid "jira-analyst"
                       "Ticket data fetch and Excel export completed" 100 true));
          simpl; [destruct (f _); simpl; left; eexists; reflexivity|].
        destruct (f (mkAgentProgress wid "workflow"
                       "LangChain workflow completed successfully" 100 true));
          simpl; [destruct (f _); simpl; right; left; eexists; reflexivity|].
        by right; right.
Qed.

(** C1 (counterexample): the concrete pipeline moves [current_step] from
    [jira_analyst] (step_1) straight to [completed], an edge the claim's
    transition relation does not have. *)
Lemma jira_workflow_skips_steps :
  let s0 := initial_state "ABC-1" "2024-01-01T00:00:00" in
  ~ consecutive (fun a b => spec_edge (a !! "current_step") (b !! "current_step"))
      (s0 :: w_trace (run_driver analyst_abc None "wf-1" s0).1).
Proof.
  intros s0 [H _]. vm_compute in H.
  repeat (destruct H as [H|H]); try discriminate;
    try (destruct H as [H1 H2]; discriminate).
Qed.

(** C1 (amended): for the concrete first stage (whatever its
    collaborators and the callback do), started from the initial
    [current_step = jira_analyst]: every snapshot of the workflow's dict
    has [current_step] equal to [jira_analyst], [completed] or [failed]
    (never [tech_architect] or [product_manager]); every two successive
    snapshots satisfy [step_edge]: [current_step] stays, goes from
    [jira_analyst] directly to [completed] or [failed], or goes from
    [completed] to [failed]; and when the callback returns normally on
    the engine's completion events they satisfy [code_edge]: the move
    from [completed] to [failed] does not occur and, once [current_step]
    is [completed] or [failed], only [currentAgent] may still change. *)
Theorem jira_workflow_transitions
    (get_ticket : value -> string + JiraTicketData)
    (get_jira_details_to_excel : string -> string -> string + value)
    (path_exists : string -> bool)
    (create_hsd_ticket : JiraTicketData -> string + value)
    (cb : option Callback) (wid : string) (s0 : WorkflowState) :
  s0 !! "current_step" = Some (VStr "jira_analyst") ->
  let tr := s0 :: w_trace (run_driver (jira_analyst_execute get_ticket
                                         get_jira_details_to_excel path_exists
                                         create_hsd_ticket) cb wid s0).1 in
  Forall (fun s => s !! "current_step" = Some (VStr "jira_analyst") \/
                   is_terminal (s !! "current_step")) tr /\
  consecutive step_edge tr /\
  (callback_returns_on (fun ev => completed ev = true) cb -> consecutive code_edge tr).
Proof.
  intros Hs0. cbv zeta. split; [|split].
  - destruct (run_driver_trace_any (jira_analyst_execute get_ticket
                get_jira_details_to_excel path_exists create_hsd_ticket) cb wid s0)
      as [[m ->] | [d [Hd H]]].
    + forall_steps Hs0 Hs0.
    + apply jira_analyst_result_step in Hd.
      assert (Hu : dict_update s0 d !! "current_step" = Some (VStr "completed")).
      { unfold dict_update. rewrite lookup_union, Hd, Hs0. reflexivity. }
      destruct H as [[m ->] | [[m ->] | ->]]; forall_steps Hs0 Hu.
  - destruct (run_driver_trace_any (jira_analyst_execute get_ticket
                get_jira_details_to_excel path_exists create_hsd_ticket) cb wid s0)
      as [[m ->] | [d [Hd H]]].
    + simpl. unfold step_edge, is_terminal. cs_lookup. rewrite ?Hs0. intuition.
    + apply jira_analyst_result_step in Hd.
      assert (Hu : dict_update s0 d !! "current_step" = Some (VStr "completed")).
      { unfold dict_update. rewrite lookup_union, Hd, Hs0. reflexivity. }
      destruct H as [[m ->] | [[m ->] | ->]]; simpl; unfold step_edge, is_terminal;
        cs_lookup; rewrite ?Hu, ?Hs0; intuition.
  - intros Hcb.
    destruct (run_driver_trace (jira_analyst_execute get_ticket get_jira_details_to_excel
                path_exists create_hsd_ticket) cb wid s0 Hcb)
      as [[m ->] | [d [Hd ->]]]; simpl.
    + split; [apply code_edge_other; [done|discriminate]|].
      split; [|done]. apply code_edge_to_terminal; [|by right].
      rewrite lookup_insert_ne by discriminate. done.
    + apply jira_analyst_result_step in Hd.
      assert (Hu : dict_update s0 d !! "current_step" = Some (VStr "completed")).
      { unfold dict_update. rewrite lookup_union, Hd, Hs0. reflexivity. }
      split.
      { unfold code_edge. rewrite Hs0, Hu. split; [right; split; [done|by left]|].
        intros [Hc|Hc]; discriminate. }
      split; [apply code_edge_agent|].
      split; [apply code_edge_same_step; rewrite lookup_insert_ne by discriminate; done|].
      split; [apply code_edge_agent|done].
Qed.

(** ** Broadcast counts *)

Section BroadcastProofs.

Variable Message : Type.
Variable send_fails : nat -> Message -> bool.

Abbreviation cnt c l := (count_occ Nat.eq_dec l c).

Lemma count_remove_conn (c d : nat) (l : list nat) :
  cnt c (remove_conn d l) = if Nat.eqb c d then cnt c l - 1 else cnt c l.
Proof.
  induction l as [|x l IH]; simpl.
  - by destruct (Nat.eqb c d).
  - destruct (Nat.eqb d x) eqn:Hdx.
    + apply Nat.eqb_eq in Hdx. subst x.
      destruct (Nat.eqb c d) eqn:Hcd.
      * apply Nat.eqb_eq in Hcd. subst. destruct (Nat.eq_dec d d); [lia|done].
      * apply Nat.eqb_neq in Hcd. destruct (Nat.eq_dec d c); [congruence|done].
    + simpl. rewrite IH. destruct (Nat.eq_dec x c) as [->|Hxc].
      * destruct (Nat.eqb c d) eqn:Hcd; [|done].
        apply Nat.eqb_eq in Hcd. subst. rewrite Nat.eqb_refl in Hdx. discriminate.
      * done.
Qed.

Lemma count_disconnect (c d : nat) (l : list nat) :
  cnt c (disconnect d l) = if Nat.eqb c d then cnt c l - 1 else cnt c l.
Proof.
  unfold disconnect. case_decide as Hin; [apply count_remove_conn|].
  destruct (Nat.eqb c d) eqn:Hcd; [|done].
  apply Nat.eqb_eq in Hcd. subst.
  rewrite list_elem_of_In in Hin. apply (count_occ_not_In Nat.eq_dec) in Hin. lia.
Qed.

Lemma count_fold_disconnect (c : nat) (disc l : list nat) :
  cnt c (fold_left (fun l c => disconnect c l) disc l) = cnt c l - cnt c disc.
Proof.
  revert l. induction disc as [|d disc IH]; intros l; simpl; [lia|].
  rewrite IH, count_disconnect.
  destruct (Nat.eqb c d) eqn:Hcd.
  - apply Nat.eqb_eq in Hcd. subst. destruct (Nat.eq_dec d d); [lia|done].
  - apply Nat.eqb_neq in Hcd. destruct (Nat.eq_dec d c); [congruence|lia].
Qed.

Lemma count_send_loop_failed (m : Message) (c : nat) (l : list nat) :
  cnt c (send_loop Message send_fails m l).2 =
  if send_fails c m then cnt c l else 0.
Proof.
  induction l as [|x l IH]; simpl; [by destruct (send_fails c m)|].
  destruct (send_fails x m) eqn:Hx; simpl; rewrite IH;
    destruct (Nat.eq_dec x c) as [->|]; rewrite ?Hx; auto.
Qed.

Lemma in_send_loop_received (m : Message) (c : nat) (l : list nat) :
  In c (send_loop Message send_fails m l).1 <-> In c l /\ send_fails c m = false.
Proof.
  induction l as [|x l IH]; simpl; [tauto|].
  destruct (send_fails x m) eqn:Hx; simpl; rewrite IH.
  - split; [tauto|]. intros [[->|H] H']; [congruence|tauto].
  - split; [intros [->|H]; tauto|]. intros [[->|H] H']; tauto.
Qed.

Lemma count_broadcast (m : Message) (c : nat) (l : list nat) :
  cnt c (broadcast Message send_fails m l).2 = if send_fails c m then 0 else cnt c l.
Proof.
  unfold broadcast; simpl. rewrite count_fold_disconnect, count_send_loop_failed.
  destruct (send_fails c m); lia.
Qed.

End BroadcastProofs.



(** ** Witnesses: the theorems applied at concrete inputs *)

Lemma jira_workflow_transitions_witness :
  let s0 := initial_state "ABC-1" "2024-01-01T00:00:00" in
  let tr := s0 :: w_trace (run_driver analyst_abc (Some cb_raise_on_completion) "wf-1" s0).1 in
  s0 !! "current_step" = Some (VStr "jira_analyst") /\
  consecutive step_edge tr /\
  nth 3 tr ∅ !! "current_step" = Some (VStr "completed") /\
  nth 4 tr ∅ !! "current_step" = Some (VStr "failed").
Proof.
  intros s0 tr. split; [reflexivity|]. split.
  - exact (proj1 (proj2 (jira_workflow_transitions (fun _ => inr ticket_abc)
             (fun _ _ => inl "no export") (fun _ => false) (fun _ => inl "no HSD")
             (Some cb_raise_on_completion) "wf-1" s0 eq_refl))).
  - split; vm_compute; reflexivity.
Defined.

Lemma execute_workflow_stage_error_witness :
  let e := (start_workflow "wf-1" "ABC-1" "2024-01-01T00:00:00" (Some cb_ok) engine_init).1 in
  let s0 := initial_state "ABC-1" "2024-01-01T00:00:00" in
  get_workflow_status "wf-1" (execute_workflow stage_fail "wf-1" e).1 =
    Some (<["current_step" := VStr "failed"]> (<["error" := VStr "ticket not found"]> s0)).
Proof.
  intros e s0.
  refine (proj1 (execute_workflow_stage_error stage_fail "wf-1" e s0 "ticket not found"
                   _ _ _ _)).
  - reflexivity.
  - intros H. apply (f_equal (fun m : WorkflowState => m !! "jira_ticket_id")) in H.
    vm_compute in H. discriminate.
  - change (callback_returns_on (fun ev => completed ev = false) (Some cb_ok)).
    hnf. intros. reflexivity.
  - right. exists {["error" := VStr "ticket not found"]}. split; [reflexivity|].
    split; reflexivity.
Defined.

Lemma execute_workflow_stage_success_witness :
  let e := (start_workflow "wf-1" "ABC-1" "2024-01-01T00:00:00" (Some cb_ok) engine_init).1 in
  let s0 := initial_state "ABC-1" "2024-01-01T00:00:00" in
  get_workflow_status "wf-1" (execute_workflow stage_x "wf-1" e).1 =
    Some (<["currentAgent" := VStr "completed"]>
            (<["current_step" := VStr "completed"]>
               (dict_update s0 {["x" := VObj true "1"]}))).
Proof.
  intros e s0.
  refine (proj1 (execute_workflow_stage_success stage_x "wf-1" e s0
                   {["x" := VObj true "1"]} _ _ _ _ _)).
  - reflexivity.
  - intros H. apply (f_equal (fun m : WorkflowState => m !! "jira_ticket_id")) in H.
    vm_compute in H. discriminate.
  - change (callback_returns_on (fun _ => True) (Some cb_ok)).
    hnf. intros. reflexivity.
  - reflexivity.
  - reflexivity.
Defined.

Lemma run_driver_merge_witness :
  let s0 := initial_state "ABC-1" "2024-01-01T00:00:00" in
  head (w_trace (run_driver stage_x None "wf-1" s0).1) =
    Some (dict_update s0 {["x" := VObj true "1"]}).
Proof.
  intros s0.
  refine (proj1 (run_driver_merge stage_x None "wf-1" s0 {["x" := VObj true "1"]}
                   _ _ _)).
  - exact I.
  - reflexivity.
  - reflexivity.
Defined.

Lemma get_all_workflows_count_witness :
  fresh_starts stage_noop ops_demo engine_init /\
  size (get_all_workflows (run_ops stage_noop ops_demo engine_init)) =
  count_starts ops_demo - count_removals stage_noop ops_demo engine_init.
Proof.
  assert (Hf : fresh_starts stage_noop ops_demo engine_init)
    by (vm_compute; repeat split).
  split; [exact Hf|].
  exact (proj1 (get_all_workflows_count stage_noop ops_demo Hf)).
Defined.

Lemma cleanup_workflow_removes_witness :
  get_workflow_status "wf-3" (cleanup_workflow "wf-3"
    (run_ops stage_noop ops_demo engine_init)) = None /\
  cleanup_workflow "wf-3" (run_ops stage_noop ops_demo engine_init) =
    run_ops stage_noop ops_demo engine_init.
Proof.
  destruct (cleanup_workflow_removes stage_noop ops_demo "wf-3") as (H1 & _ & H3).
  split; [exact H1|]. apply H3. vm_compute. reflexivity.
Defined.

(** * Further properties of the engine, the agents and the server *)

(** ** Helper lemmas *)

(** Whatever the stage and the callback do, the driver leaves
    [current_step] at [completed] or [failed]. *)
Lemma run_driver_final_step (stage : Stage) (cb : option Callback) (wid : string)
    (s0 : WorkflowState) :
  is_terminal (w_state (run_driver stage cb wid s0).1 !! "current_step").
Proof.
  unfold run_driver, execute_body, invoke_stage, run_stage, world0.
  unfold try_except, bind; simpl.
  destruct (report_all (analyst_progress cb wid) (stage s0).1
              (mkWorld s0 [] [] ["jira-analyst"])) as [w1 [e1|[]]].
  - unfold set_key; simpl.
    destruct cb as [f|]; simpl; [destruct (f _)|]; simpl;
      rewrite lookup_insert_eq; by right.
  - destruct (stage s0).2 as [e2|d]; simpl.
    + unfold raise, set_key; simpl.
      destruct cb as [f|]; simpl; [destruct (f _)|]; simpl;
        rewrite lookup_insert_eq; by right.
    + destruct (truthy (dict_get d "error")); simpl.
      * unfold raise, set_key; simpl.
        destruct cb as [f|]; simpl; [destruct (f _)|]; simpl;
          rewrite lookup_insert_eq; by right.
      * unfold ret, set_key, update_state; simpl.
        destruct cb as [f|]; simpl;
          repeat (destruct (f _); simpl);
          repeat first [rewrite lookup_insert_eq | rewrite lookup_insert_ne by discriminate];
          by (left + right).
Qed.

Lemma initial_state_step (jira_ticket_id now : string) :
  initial_state jira_ticket_id now !! "current_step" = Some (VStr "jira_analyst").
Proof.
  unfold initial_state. rewrite !lookup_insert_ne by discriminate.
  by rewrite lookup_insert_eq.
Qed.

Lemma initial_state_ticket (jira_ticket_id now : string) :
  dict_get (initial_state jira_ticket_id now) "jira_ticket_id" = VStr jira_ticket_id.
Proof.
  unfold dict_get, initial_state. rewrite !lookup_insert_ne by discriminate.
  by rewrite lookup_singleton_eq.
Qed.

Lemma initial_state_nonempty (jira_ticket_id now : string) :
  initial_state jira_ticket_id now <> ∅.
Proof. unfold initial_state. apply insert_non_empty. Qed.

(** The [current_step] of every stored dict is one the engine writes. *)
Lemma step_current_step (stage : Stage) (op : Op) (e : Engine) :
  map_Forall (fun _ st => st !! "current_step" = Some (VStr "jira_analyst") \/
                          is_terminal (st !! "current_step")) (active_workflows e) ->
  map_Forall (fun _ st => st !! "current_step" = Some (VStr "jira_analyst") \/
                          is_terminal (st !! "current_step"))
             (active_workflows (step stage op e)).
Proof.
  intros H. destruct op as [wid tid now cb|wid|wid]; simpl.
  - apply map_Forall_insert_2; [|done]. left. apply initial_state_step.
  - case_decide; [|done]. unfold execute_workflow; simpl.
    destruct (active_workflows e !! wid); simpl; [|done].
    case_decide; simpl; [done|].
    apply map_Forall_insert_2; [|done]. right. apply run_driver_final_step.
  - unfold cleanup_workflow; simpl. case_decide; [|done].
    by apply map_Forall_delete.
Qed.

Lemma run_ops_current_step (stage : Stage) (ops : list Op) (e : Engine) :
  map_Forall (fun _ st => st !! "current_step" = Some (VStr "jira_analyst") \/
                          is_terminal (st !! "current_step")) (active_workflows e) ->
  map_Forall (fun _ st => st !! "current_step" = Some (VStr "jira_analyst") \/
                          is_terminal (st !! "current_step"))
             (active_workflows (run_ops stage ops e)).
Proof.
  revert e. induction ops as [|op ops IH]; intros e H; simpl; [done|].
  apply IH. by apply step_current_step.
Qed.

(** ** The engine *)

(** Starting a workflow leaves the entry and the callback of every other
    workflow as they were. *)
Theorem start_workflow_other_entries (workflow_id jira_ticket_id now : string)
    (cb : option Callback) (e : Engine) (wid' : string) :
  wid' <> workflow_id ->
  let e' := (start_workflow workflow_id jira_ticket_id now cb e).1 in
  get_workflow_status wid' e' = get_workflow_status wid' e /\
  progress_callbacks e' !! wid' = progress_callbacks e !! wid'.
Proof.
  intros Hne. unfold get_workflow_status, start_workflow; simpl.
  rewrite lookup_insert_ne by congruence. split; [done|].
  destruct cb; simpl; [|done]. by rewrite lookup_insert_ne by congruence.
Qed.

(** Running a workflow changes only its own entry: every other entry, the
    set of stored identifiers, the callbacks and the task list are left
    as they were. *)
Theorem execute_workflow_other_entries (stage : Stage) (wid wid' : string) (e : Engine) :
  wid' <> wid ->
  let e' := (execute_workflow stage wid e).1 in
  get_workflow_status wid' e' = get_workflow_status wid' e /\
  dom (active_workflows e') = dom (active_workflows e) /\
  progress_callbacks e' = progress_callbacks e /\
  tasks e' = tasks e.
Proof.
  intros Hne. simpl. split; [|split; [apply execute_workflow_dom|split;
    [apply execute_workflow_callbacks|]]].
  - unfold get_workflow_status, execute_workflow.
    destruct (active_workflows e !! wid); simpl; [|done].
    case_decide; simpl; [done|]. by rewrite lookup_insert_ne by congruence.
  - unfold execute_workflow.
    destruct (active_workflows e !! wid); simpl; [case_decide|]; done.
Qed.

(** A task whose workflow has been cleaned up before it runs does
    nothing: the [if not state: return] guard. *)
Theorem execute_workflow_after_cleanup (stage : Stage) (wid : string) (e : Engine) :
  execute_workflow stage wid (cleanup_workflow wid e) = (cleanup_workflow wid e, None).
Proof.
  unfold execute_workflow, cleanup_workflow; simpl.
  case_decide as H; simpl.
  - by rewrite lookup_delete_eq.
  - destruct (active_workflows e !! wid) as [st|] eqn:Hl; [|done].
    exfalso. apply H. by exists st.
Qed.

(** ** The server *)

(** [GET /workflow/{id}] right after [POST /workflow/start] (before the
    task runs): the workflow is found, its status is [jira_analyst], the
    [current_step] the start response announced, and its state carries the
    requested ticket. *)
Theorem http_start_then_get (send_fails : nat -> JsonDict -> bool)
    (workflow_id now jira_ticket_id : string) (s : Server) :
  let r := http_start_workflow send_fails workflow_id now jira_ticket_id s in
  exists resp st,
    r.2 = HttpOk resp /\
    resp_workflow_id resp = workflow_id /\ resp_status resp = "started" /\
    resp_current_step resp = Some "jira_analyst" /\
    http_get_workflow_status workflow_id r.1 =
      HttpOk (mkStatusBody workflow_id (VStr "jira_analyst") st) /\
    dict_get st "jira_ticket_id" = VStr jira_ticket_id.
Proof.
  simpl. eexists _, (initial_state jira_ticket_id now).
  split; [reflexivity|]. do 3 (split; [reflexivity|]). split.
  - unfold http_get_workflow_status, get_workflow_status; simpl.
    rewrite lookup_insert_eq. rewrite decide_False by apply initial_state_nonempty.
    by rewrite initial_state_step.
  - apply initial_state_ticket.
Qed.

(** After [cleanup_workflow], [GET /workflow/{id}] answers 404. *)
Theorem http_get_after_cleanup (wid : string) (e : Engine) (conns : list nat) :
  http_get_workflow_status wid (mkServer (cleanup_workflow wid e) conns) =
  HttpError 404 "Workflow not found".
Proof.
  unfold http_get_workflow_status, get_workflow_status, cleanup_workflow; simpl.
  case_decide as H; simpl.
  - by rewrite lookup_delete_eq.
  - destruct (active_workflows e !! wid) as [st|] eqn:Hl; [|done].
    exfalso. apply H. by exists st.
Qed.

(** On every engine reachable by the API calls and task runs, [GET
    /workflow/{id}] answers 404 exactly for the identifiers absent from
    the store; for a stored workflow it answers with status
    [jira_analyst], [completed] or [failed], never the default
    [unknown]. *)
Theorem http_get_reachable_status (stage : Stage) (ops : list Op) (conns : list nat)
    (wid : string) :
  let s := mkServer (run_ops stage ops engine_init) conns in
  match get_workflow_status wid (engine s) with
  | None => http_get_workflow_status wid s = HttpError 404 "Workflow not found"
  | Some st =>
      exists v, http_get_workflow_status wid s = HttpOk (mkStatusBody wid v st) /\
                (v = VStr "jira_analyst" \/ v = VStr "completed" \/ v = VStr "failed")
  end.
Proof.
  simpl. pose proof (run_ops_current_step stage ops engine_init) as Hinv.
  unfold http_get_workflow_status; simpl.
  destruct (get_workflow_status wid (run_ops stage ops engine_init)) as [st|] eqn:Hl;
    [|done].
  assert (Hst : st !! "current_step" = Some (VStr "jira_analyst") \/
                is_terminal (st !! "current_step")).
  { apply (Hinv (map_Forall_empty _) wid st Hl). }
  rewrite decide_False.
  - destruct Hst as [H|[H|H]]; rewrite H; simpl; eexists; split; eauto.
  - intros ->. rewrite lookup_empty in Hst. destruct Hst as [H|[H|H]]; discriminate.
Qed.

(** A workflow started through [POST /workflow/start] and run by the event
    loop with the Jira analyst whose [get_ticket] is [JiraClient.get_ticket]:
    [GET /workflow/{id}] reports [completed] with the ticket's key when the
    fetch returns a ticket, and [failed] with [get_ticket]'s wrapped message
    when the fetch returns [None] or raises. *)
Theorem http_workflow_outcome (send_fails : nat -> JsonDict -> bool)
    (fetch_real_ticket : value -> string + option JiraTicketData)
    (get_jira_details_to_excel : string -> string -> string + value)
    (path_exists : string -> bool) (create_hsd_ticket : JiraTicketData -> string + value)
    (workflow_id now jira_ticket_id : string) (s : Server) :
  let analyst := jira_analyst_execute (jira_get_ticket fetch_real_ticket)
                   get_jira_details_to_excel path_exists create_hsd_ticket in
  let s1 := (http_start_workflow send_fails workflow_id now jira_ticket_id s).1 in
  let s2 := server_run send_fails analyst workflow_id s1 in
  match fetch_real_ticket (VStr jira_ticket_id) with
  | inr (Some t) =>
      exists st, http_get_workflow_status workflow_id s2 =
                   HttpOk (mkStatusBody workflow_id (VStr "completed") st) /\
                 st !! "ticket_key" = Some (VStr (key t)) /\
                 st !! "currentAgent" = Some (VStr "completed")
  | inr None =>
      exists st, http_get_workflow_status workflow_id s2 =
                   HttpOk (mkStatusBody workflow_id (VStr "failed") st) /\
                 st !! "error" = Some (VStr ("Unable to fetch Jira ticket " ++
                   jira_ticket_id ++ ": Unable to fetch Jira ticket " ++
                   jira_ticket_id ++ " - API request failed"))
  | inl m =>
      exists st, http_get_workflow_status workflow_id s2 =
                   HttpOk (mkStatusBody workflow_id (VStr "failed") st) /\
                 st !! "error" = Some (VStr ("Unable to fetch Jira ticket " ++
                   jira_ticket_id ++ ": " ++ m))
  end.
Proof.
  intros analyst s1 s2.
  set (s0 := initial_state jira_ticket_id now).
  set (e1 := mkEngine (<[workflow_id := s0]> (active_workflows (engine s)))
               (<[workflow_id := server_progress_callback]> (progress_callbacks (engine s)))
               (remove_first workflow_id (tasks (engine s) ++ [workflow_id]))).
  assert (Hs2 : engine s2 = (execute_workflow analyst workflow_id e1).1).
  { subst s2 s1. unfold server_run, http_start_workflow; simpl.
    rewrite decide_True by (apply elem_of_app; right; by apply list_elem_of_singleton).
    destruct (execute_workflow _ _ _) as [e' [[w res]|]]; reflexivity. }
  assert (Hcb : progress_callbacks e1 !! workflow_id = Some server_progress_callback)
    by (simpl; by rewrite lookup_insert_eq).
  assert (Hl : active_workflows e1 !! workflow_id = Some s0)
    by (simpl; by rewrite lookup_insert_eq).
  unfold http_get_workflow_status, get_workflow_status. rewrite Hs2.
  rewrite (execute_workflow_found analyst workflow_id e1 s0 Hl
             (initial_state_nonempty jira_ticket_id now)).
  rewrite Hcb. simpl. rewrite lookup_insert_eq.
  assert (Htid : dict_get s0 "jira_ticket_id" = VStr jira_ticket_id)
    by apply initial_state_ticket.
  destruct (fetch_real_ticket (VStr jira_ticket_id)) as [m|[t|]] eqn:Hf.
  - assert (Herr : stage_error (analyst s0)
                     ("Unable to fetch Jira ticket " ++ jira_ticket_id ++ ": " ++ m)).
    { left. subst analyst. unfold jira_analyst_execute, jira_get_ticket.
      rewrite Htid, Hf. reflexivity. }
    destruct (run_driver_error analyst (Some server_progress_callback) workflow_id s0 _
                (fun _ _ => eq_refl) Herr) as (Hst & _).
    rewrite Hst. rewrite decide_False by apply insert_non_empty.
    rewrite lookup_insert_eq. eexists. split; [reflexivity|].
    rewrite lookup_insert_ne by discriminate. by rewrite lookup_insert_eq.
  - set (d := (<["status" := VStr "completed"]>
            (<["hsd_ticket_key" := match create_hsd_ticket t with
                                   | inl _ => VNone | inr k => k end]>
            (<["excel_export" :=
                 match get_jira_details_to_excel (key t) "jira_exports" with
                 | inl _ => VNone
                 | inr f => if truthy f && path_exists (py_str f) then f else VNone
                 end]>
            (<["summary" := summary t]>
            (<["ticket_key" := VStr (key t)]>
            (<["current_step" := VStr "completed"]>
            {["jira_ticket_data" := ticket_dict t]})))))) : WorkflowState).
    assert (Hd : (analyst s0).2 = inr d).
    { subst analyst. unfold jira_analyst_execute, jira_get_ticket.
      rewrite Htid, Hf. reflexivity. }
    assert (Hnoerr : truthy (dict_get d "error") = false).
    { unfold dict_get, d. rewrite !lookup_insert_ne by discriminate.
      by rewrite lookup_singleton_ne by discriminate. }
    destruct (run_driver_success analyst (Some server_progress_callback) workflow_id s0 d
                (fun _ _ => eq_refl) Hd Hnoerr) as (_ & _ & Hst & _).
    rewrite Hst. rewrite decide_False by apply insert_non_empty.
    rewrite lookup_insert_ne by discriminate. rewrite lookup_insert_eq.
    eexists. split; [reflexivity|]. split.
    + rewrite !lookup_insert_ne by discriminate. unfold dict_update.
      rewrite lookup_union. unfold d at 1.
      rewrite !lookup_insert_ne by discriminate. rewrite lookup_insert_eq.
      by destruct (s0 !! "ticket_key").
    + by rewrite lookup_insert_eq.
  - assert (Herr : stage_error (analyst s0)
                     ("Unable to fetch Jira ticket " ++ jira_ticket_id ++
                      ": Unable to fetch Jira ticket " ++ jira_ticket_id ++
                      " - API request failed")).
    { left. subst analyst. unfold jira_analyst_execute, jira_get_ticket.
      rewrite Htid, Hf. reflexivity. }
    destruct (run_driver_error analyst (Some server_progress_callback) workflow_id s0 _
                (fun _ _ => eq_refl) Herr) as (Hst & _).
    rewrite Hst. rewrite decide_False by apply insert_non_empty.
    rewrite lookup_insert_eq. eexists. split; [reflexivity|].
    rewrite lookup_insert_ne by discriminate. by rewrite lookup_insert_eq.
Qed.

(** ** The Jira analyst and the Jira client *)

(** The analyst's progress reports never go down and stay within 0..100:
    they start at 10; on success they end at 100, and when the ticket
    fetch raises, 10 is the only report. *)
Theorem jira_analyst_progress_reports get_ticket get_jira_details_to_excel
    path_exists create_hsd_ticket (state : WorkflowState) :
  let r := jira_analyst_execute get_ticket get_jira_details_to_excel path_exists
             create_hsd_ticket state in
  consecutive (fun a b : Report => (a.2 <= b.2)%Z) r.1 /\
  Forall (fun a : Report => (0 <= a.2 <= 100)%Z) r.1 /\
  head r.1 = Some ("jira-analyst", "Starting ticket data fetch...", 10%Z) /\
  (forall d, r.2 = inr d ->
     last r.1 = Some ("jira-analyst", "Workflow completed successfully", 100%Z)) /\
  (forall m, r.2 = inl m -> length r.1 = 1).
Proof.
  simpl. unfold jira_analyst_execute.
  destruct (get_ticket (dict_get state "jira_ticket_id")); simpl.
  - repeat split; [repeat constructor; simpl; lia|discriminate].
  - repeat split; try discriminate; repeat constructor; simpl; lia.
Qed.

(** Every result of the analyst has exactly the seven keys of its return
    dict, no [error] key, [current_step] and [status] both [completed] and
    [ticket_key] the fetched key; [excel_export] is [None] or a truthy file
    name that exists on disk; [hsd_ticket_key] is [None] when the HSD
    ticket creation raises. *)
Theorem jira_analyst_result get_ticket get_jira_details_to_excel
    path_exists create_hsd_ticket (state d : WorkflowState) :
  (jira_analyst_execute get_ticket get_jira_details_to_excel path_exists
     create_hsd_ticket state).2 = inr d ->
  dom d = list_to_set ["jira_ticket_data"; "current_step"; "ticket_key"; "summary";
                       "excel_export"; "hsd_ticket_key"; "status"] /\
  d !! "error" = None /\
  d !! "current_step" = Some (VStr "completed") /\
  d !! "status" = Some (VStr "completed") /\
  exists t, get_ticket (dict_get state "jira_ticket_id") = inr t /\
    d !! "ticket_key" = Some (VStr (key t)) /\
    (d !! "excel_export" = Some VNone \/
     exists f, d !! "excel_export" = Some f /\ truthy f = true /\
               path_exists (py_str f) = true) /\
    ((exists m, create_hsd_ticket t = inl m) -> d !! "hsd_ticket_key" = Some VNone).
Proof.
  unfold jira_analyst_execute.
  destruct (get_ticket (dict_get state "jira_ticket_id")) as [m|t]; simpl;
    [discriminate|].
  intros Hd. injection Hd as <-.
  split; [rewrite !dom_insert_L, dom_singleton_L; set_solver|].
  split; [rewrite !lookup_insert_ne by discriminate;
          by rewrite lookup_singleton_ne by discriminate|].
  split; [rewrite !lookup_insert_ne by discriminate; by rewrite lookup_insert_eq|].
  split; [by rewrite lookup_insert_eq|].
  exists t. split; [done|]. split.
  { rewrite !lookup_insert_ne by discriminate. by rewrite lookup_insert_eq. }
  split.
  - rewrite !lookup_insert_ne by discriminate. rewrite lookup_insert_eq.
    destruct (get_jira_details_to_excel (key t) "jira_exports") as [|f]; [by left|].
    destruct (truthy f) eqn:Ht, (path_exists (py_str f)) eqn:Hp; simpl;
      try (by left). right. eauto.
  - intros [m Hm]. rewrite lookup_insert_ne by discriminate.
    rewrite lookup_insert_eq, Hm. done.
Qed.

(** [JiraClient.get_ticket] returns a ticket exactly when
    [_fetch_real_ticket] returns one and the logging of its details
    completes; when that logging raises (e.g. on a ticket whose
    [issuetype] is [None]), [get_ticket] raises although a ticket was
    fetched.  Every exception it raises carries the prefix
    [Unable to fetch Jira ticket <id>: ]. *)
Theorem jira_get_ticket_wraps_errors
    (fetch_real_ticket : value -> option JiraTicketData)
    (log_ticket_details : JiraTicketData -> option string) (ticket_id : value) :
  let get_ticket := jira_get_ticket (fetch_and_log fetch_real_ticket log_ticket_details) in
  (forall m, get_ticket ticket_id = inl m ->
     exists rest, m = "Unable to fetch Jira ticket " ++ py_str ticket_id ++ ": " ++ rest) /\
  (forall t, get_ticket ticket_id = inr t <->
             fetch_real_ticket ticket_id = Some t /\ log_ticket_details t = None) /\
  (forall t e, fetch_real_ticket ticket_id = Some t -> log_ticket_details t = Some e ->
     get_ticket ticket_id = inl ("Unable to fetch Jira ticket " ++ py_str ticket_id ++ ": " ++ e)).
Proof.
  cbv zeta. unfold jira_get_ticket, fetch_and_log.
  destruct (fetch_real_ticket ticket_id) as [t|]; [destruct (log_ticket_details t) as [e|] eqn:He|].
  - split; [intros m [= <-]; eauto|]. split.
    + intros t'. split; [discriminate|]. intros [[= <-] H]. congruence.
    + intros t' e' [= <-] He'. congruence.
  - split; [discriminate|]. split.
    + intros t'. split; [intros [= <-]; auto|]. intros [[= <-] _]. done.
    + intros t' e' [= <-] He'. congruence.
  - split; [intros m [= <-]; eauto|]. split.
    + intros t'. split; [discriminate|]. intros [[=] _].
    + intros t' e' [=].
Qed.

(** ** The events handed to the callback *)

Section EventInvariant.

Variable P : AgentProgress -> Prop.

Lemma keeps_ret {A} (x : A) : keeps_events P (ret x).
Proof. by intros w Hw. Qed.

Lemma keeps_raise {A} (m : string) : keeps_events P (@raise A m).
Proof. by intros w Hw. Qed.

Lemma keeps_set_key k v : keeps_events P (set_key k v).
Proof. by intros w Hw. Qed.

Lemma keeps_update_state r : keeps_events P (update_state r).
Proof. by intros w Hw. Qed.

Lemma keeps_bind {A B} (m : M A) (k : A -> M B) :
  keeps_events P m -> (forall x, keeps_events P (k x)) -> keeps_events P (bind m k).
Proof.
  intros Hm Hk w Hw. unfold bind.
  specialize (Hm w Hw). destruct (m w) as [w' [e|x]]; simpl in *; [done|].
  by apply Hk.
Qed.

Lemma keeps_try_except {A} (m : M A) (h : string -> M A) :
  keeps_events P m -> (forall e, keeps_events P (h e)) -> keeps_events P (try_except m h).
Proof.
  intros Hm Hh w Hw. unfold try_except.
  specialize (Hm w Hw). destruct (m w) as [w' [e|x]]; simpl in *; [|done].
  by apply Hh.
Qed.

Lemma keeps_emit cb ev : P ev -> keeps_events P (emit cb ev).
Proof.
  intros Hev w Hw. destruct cb as [f|]; simpl; [|done].
  destruct (f ev); simpl; apply Forall_app; split; auto.
Qed.

Lemma keeps_report_all rep l :
  (forall r, keeps_events P (rep r)) -> keeps_events P (report_all rep l).
Proof.
  intros Hrep. induction l as [|r l IH]; simpl;
    [apply keeps_ret|by apply keeps_bind].
Qed.

Lemma keeps_invoke_stage name stage rep :
  (forall r, keeps_events P (rep r)) -> keeps_events P (invoke_stage name stage rep).
Proof.
  intros Hrep w Hw. unfold invoke_stage.
  assert (H : keeps_events P (run_stage rep (stage (w_state w)))).
  { unfold run_stage. apply keeps_bind; [by apply keeps_report_all|].
    intros _. destruct (stage (w_state w)).2; [apply keeps_raise|apply keeps_ret]. }
  apply H. exact Hw.
Qed.

End EventInvariant.

Create HintDb keeps.
#[local] Hint Resolve keeps_ret keeps_raise keeps_set_key keeps_update_state
  keeps_bind keeps_try_except keeps_emit keeps_report_all keeps_invoke_stage : keeps.

(** Every event the driver hands to the callback carries the workflow's
    identifier; the reports of the stage are not completed, and every
    completed event (the engine's own) has progress 100. *)
Theorem run_driver_events (stage : Stage) (cb : option Callback) (wid : string)
    (s0 : WorkflowState) :
  Forall (fun ev => workflow_id ev = wid /\ (completed ev = true -> progress ev = 100%Z))
    (w_events (run_driver stage cb wid s0).1).
Proof.
  unfold run_driver.
  assert (H : keeps_events (fun ev => workflow_id ev = wid /\
                              (completed ev = true -> progress ev = 100%Z))
                (execute_body stage cb wid)).
  { apply keeps_try_except.
    - apply keeps_bind.
      + apply keeps_invoke_stage. intros [[ag msg] p]. apply keeps_emit.
        simpl. split; [done|discriminate].
      + intros d. apply keeps_bind;
          [destruct (truthy _); [apply keeps_raise|apply keeps_ret]|].
        intros _. repeat (apply keeps_bind; [|intros _]);
          auto with keeps; apply keeps_emit; simpl; auto.
    - intros err. repeat (apply keeps_bind; [|intros _]);
        auto with keeps; apply keeps_emit; simpl; auto. }
  apply H. constructor.
Qed.

(** ** The WebSocket connections *)

Section BroadcastFilter.

Variable Message : Type.
Variable send_fails : nat -> Message -> bool.

Lemma send_loop_filter (m : Message) (l : list nat) :
  send_loop Message send_fails m l =
  (List.filter (fun c => negb (send_fails c m)) l,
   List.filter (fun c => send_fails c m) l).
Proof.
  induction l as [|c l IH]; simpl; [done|]. rewrite IH; simpl.
  by destruct (send_fails c m).
Qed.

Lemma disconnect_cons_ne (c x : nat) (t : list nat) :
  c <> x -> disconnect c (x :: t) = x :: disconnect c t.
Proof.
  intros Hne. unfold disconnect.
  destruct (decide (c ∈ t)) as [Ht|Ht].
  - rewrite decide_True by (by apply elem_of_cons; right). simpl.
    by rewrite (proj2 (Nat.eqb_neq c x) Hne).
  - rewrite decide_False; [done|]. intros [->|H]%elem_of_cons; auto.
Qed.

Lemma fold_disconnect_cons_ne (ds : list nat) (x : nat) (t : list nat) :
  Forall (fun c => c <> x) ds ->
  fold_left (fun l c => disconnect c l) ds (x :: t) =
  x :: fold_left (fun l c => disconnect c l) ds t.
Proof.
  revert t. induction ds as [|c ds IH]; intros t Hds; simpl; [done|].
  inversion Hds as [|? ? Hc Hds']; subst.
  rewrite disconnect_cons_ne by done. by apply IH.
Qed.

Lemma fold_disconnect_filter (F : nat -> bool) (l r : list nat) :
  fold_left (fun l c => disconnect c l) (List.filter F l) (l ++ r)%list =
  (List.filter (fun c => negb (F c)) l ++ r)%list.
Proof.
  revert r. induction l as [|x l IH]; intros r; simpl; [done|].
  destruct (F x) eqn:Hx; simpl.
  - unfold disconnect at 2. rewrite decide_True by (apply elem_of_cons; by left).
    simpl. rewrite Nat.eqb_refl. apply IH.
  - rewrite fold_disconnect_cons_ne; [by rewrite IH|].
    apply Forall_forall. intros c Hc ->.
    apply list_elem_of_In, filter_In in Hc. destruct Hc as [_ Hc]. congruence.
Qed.

End BroadcastFilter.

(** ** Broadcasts as coroutines *)

Section CoroutineProofs.

Variable Message : Type.
Variable send_fails : nat -> Message -> bool.

Lemma lookup_app_length {A} (ts : list A) (x : A) : (ts ++ [x])%list !! length ts = Some x.
Proof. induction ts; simpl; auto. Qed.

Lemma insert_app_length {A} (ts : list A) (x y : A) :
  <[length ts := y]> (ts ++ [x])%list = (ts ++ [y])%list.
Proof. induction ts; simpl; [done|]. by rewrite IHts. Qed.

Lemma drop_cons_nth {A} (l : list A) n x t :
  drop n l = x :: t -> nth_error l n = Some x /\ drop (S n) l = t.
Proof.
  revert n. induction l as [|a l IH]; intros [|n]; simpl; try discriminate.
  - intros [= -> ->]. done.
  - apply IH.
Qed.

Lemma drop_nil_nth {A} (l : list A) n : drop n l = [] -> nth_error l n = None.
Proof.
  revert n. induction l as [|a l IH]; intros [|n]; simpl; try discriminate; auto.
Qed.

Lemma csched_app (evs1 evs2 : list (CEvent Message)) (s : Conns Message) :
  csched send_fails (evs1 ++ evs2)%list s = csched send_fails evs2 (csched send_fails evs1 s).
Proof. revert s. induction evs1; intros s; simpl; auto. Qed.

Lemma resume_last (m : Message) (l : list nat) (ts : list (BTask Message))
    (i c : nat) (d : list nat) (dl : list (nat * Message)) :
  cstep send_fails (EResume (length ts)) (mkConns l (ts ++ [BAwait m i c d])%list dl) =
  let r := loop_from m i (if send_fails c m then d ++ [c] else d)%list l in
  mkConns r.2 (ts ++ [r.1])%list
          (if send_fails c m then dl else dl ++ [(c, m)])%list.
Proof.
  unfold cstep. cbn [btasks active_connections delivered].
  rewrite lookup_app_length. by rewrite insert_app_length.
Qed.

(** The resumes of a broadcast whose list does not change meanwhile. *)
Lemma solo_resumes (m : Message) (l : list nat) (ts : list (BTask Message))
    (post : list nat) : forall i c d dl,
  nth_error l i = Some c -> drop (S i) l = post ->
  csched send_fails (repeat (EResume (length ts)) (S (length post)))
     (mkConns l (ts ++ [BAwait m (S i) c d])%list dl) =
  let r := send_loop Message send_fails m (c :: post) in
  mkConns (fold_left (fun l c => disconnect c l) (d ++ r.2)%list l) (ts ++ [BDone])%list
          (dl ++ map (fun c => (c, m)) r.1)%list.
Proof.
  induction post as [|c' post IH]; intros i c d dl Hc Hpost.
  - cbn [repeat length csched]. rewrite resume_last. unfold loop_from.
    rewrite (drop_nil_nth l (S i) Hpost). cbn zeta. simpl.
    destruct (send_fails c m); simpl; rewrite ?app_nil_r; reflexivity.
  - destruct (drop_cons_nth l (S i) c' post Hpost) as [Hc' Hpost'].
    change (repeat (@EResume Message (length ts)) (S (length (c' :: post)))) with
      (EResume (length ts) :: repeat (@EResume Message (length ts)) (S (length post))).
    cbn [csched]. rewrite resume_last. unfold loop_from at 1. rewrite Hc'.
    cbn [fst snd].
    rewrite (IH (S i) c' _ _ Hc' Hpost'). cbn zeta. cbn [send_loop fst snd].
    destruct (send_fails c m); simpl; f_equal; rewrite <-?app_assoc; reflexivity.
Qed.

(** A broadcast with no interleaved event is [broadcast]. *)
Lemma broadcast_solo (m : Message) (s : Conns Message) :
  csched send_fails (solo_events m s) s =
  mkConns (broadcast Message send_fails m (active_connections s)).2
          (btasks s ++ [BDone])%list
          (delivered s ++ map (fun c => (c, m))
                             (broadcast Message send_fails m (active_connections s)).1)%list.
Proof.
  destruct s as [l ts dl]. unfold solo_events; cbn [active_connections btasks delivered].
  destruct l as [|c post].
  - simpl. by rewrite app_nil_r.
  - change (csched send_fails (repeat (EResume (length ts)) (S (length post)))
              (cstep send_fails (EBroadcast m) (mkConns (c :: post) ts dl)) =
            mkConns (broadcast Message send_fails m (c :: post)).2 (ts ++ [BDone])%list
              (dl ++ map (fun c0 => (c0, m))
                    (broadcast Message send_fails m (c :: post)).1)%list).
    assert (Hb : cstep send_fails (EBroadcast m) (mkConns (c :: post) ts dl) =
                 mkConns (c :: post) (ts ++ [BAwait m 1 c []])%list dl) by reflexivity.
    rewrite Hb, (solo_resumes m (c :: post) ts post 0 c [] dl); [|done|done].
    reflexivity.
Qed.

Lemma broadcast_filter_eq (m : Message) (l : list nat) :
  broadcast Message send_fails m l =
  (List.filter (fun c => negb (send_fails c m)) l,
   List.filter (fun c => negb (send_fails c m)) l).
Proof.
  unfold broadcast. rewrite send_loop_filter. simpl. f_equal.
  rewrite <-(app_nil_r l) at 2.
  rewrite fold_disconnect_filter. apply app_nil_r.
Qed.

(** Successive broadcasts only add deliveries, and deliver nothing to a
    connection that is not registered. *)
Lemma solo_all_delivered (ms : list Message) (s : Conns Message) :
  exists ext, delivered (solo_all send_fails ms s) = (delivered s ++ ext)%list.
Proof.
  revert s. induction ms as [|m ms IH]; intros s; cbn [solo_all].
  - exists []. by rewrite app_nil_r.
  - destruct (IH (csched send_fails (solo_events m s) s)) as [ext Hext].
    rewrite Hext, broadcast_solo. cbn [active_connections delivered btasks]. rewrite <-app_assoc. eauto.
Qed.

Lemma solo_all_absent (ms : list Message) (s : Conns Message) (c : nat) :
  ~ In c (active_connections s) ->
  exists ext, delivered (solo_all send_fails ms s) = (delivered s ++ ext)%list /\
              forall m', ~ In (c, m') ext.
Proof.
  revert s. induction ms as [|m ms IH]; intros s Hc; cbn [solo_all].
  - exists []. rewrite app_nil_r. auto.
  - destruct (IH (csched send_fails (solo_events m s) s)) as (ext & Hext & Hn).
    { rewrite broadcast_solo. cbn [active_connections delivered btasks].
      rewrite (count_occ_In Nat.eq_dec), count_broadcast.
      rewrite (count_occ_In Nat.eq_dec) in Hc. destruct (send_fails c m); lia. }
    rewrite Hext, broadcast_solo. cbn [active_connections delivered btasks].
    exists (map (fun c0 => (c0, m)) (broadcast Message send_fails m (active_connections s)).1
            ++ ext)%list.
    split; [by rewrite <-app_assoc|].
    intros m' [Hin|Hin]%in_app_or; [|by apply (Hn m')].
    apply in_map_iff in Hin as (x & [= -> ->] & Hx).
    unfold broadcast in Hx. simpl in Hx. apply in_send_loop_received in Hx. tauto.
Qed.

Lemma solo_all_healthy (ms : list Message) (s : Conns Message) (c : nat) :
  In c (active_connections s) -> (forall m, send_fails c m = false) ->
  forall m, In m ms -> In (c, m) (delivered (solo_all send_fails ms s)).
Proof.
  revert s. induction ms as [|m0 ms IH]; intros s Hc Hh m Hm; [done|]. cbn [solo_all].
  assert (Hc1 : In c (active_connections (csched send_fails (solo_events m0 s) s))).
  { rewrite broadcast_solo. cbn [active_connections delivered btasks].
    rewrite (count_occ_In Nat.eq_dec), count_broadcast, Hh.
    by rewrite <-(count_occ_In Nat.eq_dec). }
  destruct Hm as [<-|Hm]; [|by apply IH].
  destruct (solo_all_delivered ms (csched send_fails (solo_events m0 s) s)) as [ext ->].
  apply in_or_app. left. rewrite broadcast_solo. cbn [active_connections delivered btasks]. apply in_or_app. right.
  apply in_map_iff. exists c. split; [done|].
  unfold broadcast; simpl. apply in_send_loop_received. auto.
Qed.

(** Registration counts: the list stays without duplicates. *)
Lemma count_loop_from (m : Message) (i : nat) (d l : list nat) (x : nat) :
  count_occ Nat.eq_dec (loop_from m i d l).2 x <= count_occ Nat.eq_dec l x.
Proof.
  unfold loop_from. destruct (nth_error l i); simpl; [lia|].
  rewrite count_fold_disconnect. lia.
Qed.

Lemma cstep_nodup (ev : CEvent Message) (s : Conns Message) :
  (forall x, count_occ Nat.eq_dec (active_connections s) x <= 1) ->
  match ev with EConnect c => ~ In c (active_connections s) | _ => True end ->
  forall x, count_occ Nat.eq_dec (active_connections (cstep send_fails ev s)) x <= 1.
Proof.
  intros Hs Hev x. destruct ev as [m|k|c|c]; simpl.
  - pose proof (count_loop_from m 0 [] (active_connections s) x). specialize (Hs x). lia.
  - destruct (btasks s !! k) as [[m i c d|]|] eqn:Hk; simpl; [|apply Hs|apply Hs].
    pose proof (count_loop_from m i (if send_fails c m then d ++ [c] else d)%list
                  (active_connections s) x). specialize (Hs x). lia.
  - rewrite count_occ_app. simpl. destruct (Nat.eq_dec c x) as [->|]; [|specialize (Hs x); lia].
    apply (count_occ_not_In Nat.eq_dec) in Hev. lia.
  - rewrite count_disconnect. specialize (Hs x). destruct (Nat.eqb x c); lia.
Qed.

Lemma csched_nodup (evs : list (CEvent Message)) (s : Conns Message) :
  (forall x, count_occ Nat.eq_dec (active_connections s) x <= 1) ->
  connects_fresh send_fails evs s ->
  forall x, count_occ Nat.eq_dec (active_connections (csched send_fails evs s)) x <= 1.
Proof.
  revert s. induction evs as [|ev evs IH]; intros s Hs Hf; simpl; [done|].
  destruct Hf as [Hev Hf]. apply IH; [|done]. by apply cstep_nodup.
Qed.

(** A resume that returns runs the [disconnect] loop: with at most one
    registration of each connection, every connection of [disconnected]
    leaves the list. *)
Lemma resume_return_removes (s : Conns Message) (k : nat) (m : Message) (i c : nat)
    (d : list nat) :
  (forall x, count_occ Nat.eq_dec (active_connections s) x <= 1) ->
  btasks s !! k = Some (BAwait m i c d) ->
  btasks (cstep send_fails (EResume k) s) !! k = Some BDone ->
  forall x, In x (if send_fails c m then d ++ [c] else d)%list ->
  ~ In x (active_connections (cstep send_fails (EResume k) s)).
Proof.
  intros Hs Hk. simpl. rewrite Hk. simpl.
  set (d' := (if send_fails c m then d ++ [c] else d)%list).
  rewrite list_lookup_insert_eq by (by apply lookup_lt_Some in Hk).
  unfold loop_from. destruct (nth_error (active_connections s) i); simpl;
    [intros [=]|].
  intros _ x Hx. rewrite (count_occ_In Nat.eq_dec), count_fold_disconnect.
  apply (count_occ_In Nat.eq_dec) in Hx. specialize (Hs x). lia.
Qed.

End CoroutineProofs.



(** Whatever the other coroutines do while broadcasts are suspended,
    provided [connect] only registers a connection that is not registered
    (it registers a new websocket): the list never holds a connection
    twice, and when a broadcast returns, every connection whose send
    raised during it (its list [disconnected], and the connection of the
    send just completed when that send raised) is no longer registered. *)
Theorem broadcast_removes_failed (Message : Type) (send_fails : nat -> Message -> bool)
    (evs : list (CEvent Message)) (s : Conns Message) :
  NoDup (active_connections s) -> connects_fresh send_fails evs s ->
  let s' := csched send_fails evs s in
  NoDup (active_connections s') /\
  forall k m i c d, btasks s' !! k = Some (BAwait m i c d) ->
    btasks (cstep send_fails (EResume k) s') !! k = Some BDone ->
    forall x, In x (if send_fails c m then d ++ [c] else d)%list ->
    ~ In x (active_connections (cstep send_fails (EResume k) s')).
Proof.
  intros Hs Hf. simpl.
  rewrite NoDup_ListNoDup, (NoDup_count_occ Nat.eq_dec) in Hs.
  pose proof (csched_nodup Message send_fails evs s Hs Hf) as Hs'.
  split; [by apply NoDup_ListNoDup, (NoDup_count_occ Nat.eq_dec)|].
  intros k m i c d Hk Hdone. exact (resume_return_removes Message send_fails _ k m i c d Hs' Hk Hdone).
Qed.

(** [connect] then [disconnect] of a connection not yet in the list gives
    the list back; [disconnect] of an absent connection changes nothing. *)
Theorem connect_then_disconnect (accept : nat -> option string) (c : nat)
    (active_connections l' : list nat) :
  c ∉ active_connections ->
  connect accept c active_connections = inr l' ->
  disconnect c l' = active_connections /\ disconnect c active_connections = active_connections.
Proof.
  intros Hc. unfold connect. destruct (accept c); [discriminate|].
  intros [= <-]. split; [|unfold disconnect; by rewrite decide_False].
  unfold disconnect. rewrite decide_True by (apply elem_of_app; right; by left).
  clear accept. induction active_connections as [|d l IH]; simpl.
  - by rewrite Nat.eqb_refl.
  - rewrite (proj2 (Nat.eqb_neq c d)); [|intros ->; apply Hc; by left].
    f_equal. apply IH. intros H. apply Hc. by right.
Qed.

(** ** The later agents *)

(** [TechnicalArchitectAgent.execute] never raises: it returns what the
    rest of its body returns (after a normal first report and a truthy
    [jira_ticket_data]) or the dict [{"error": "TechnicalArchitectAgent
    failed: ..."}]; an exception of the progress callback is caught too. *)
Theorem technical_architect_never_raises (progress_callback : Report -> M unit)
    (architect_rest : WorkflowState -> M WorkflowState) (state : WorkflowState) (w : World) :
  exists d,
    (technical_architect_execute progress_callback architect_rest state w).2 = inr d /\
    ((exists m, d = {["error" := VStr ("TechnicalArchitectAgent failed: " ++ m)]}) \/
     exists w1 w2,
       progress_callback ("tech-architect", "Starting impact analysis...", 20%Z) w =
         (w1, inr tt) /\
       truthy (dict_get state "jira_ticket_data") = true /\
       architect_rest state w1 = (w2, inr d)).
Proof.
  unfold technical_architect_execute, try_except, bind.
  destruct (progress_callback _ w) as [w1 [m|[]]]; simpl; [eauto|].
  destruct (truthy (dict_get state "jira_ticket_data")) eqn:Ht; simpl.
  - destruct (architect_rest state w1) as [w2 [m|d]] eqn:Hr; simpl; [eauto|].
    exists d. split; [done|]. right. eauto.
  - eauto.
Qed.

(** When [jira_ticket_data] is missing or falsy and the first report
    returns normally, [TechnicalArchitectAgent.execute] returns the error
    dict [{"error": "TechnicalArchitectAgent failed: Jira ticket data not
    available"}] without running the rest of its body. *)
Theorem technical_architect_missing_data (progress_callback : Report -> M unit)
    (architect_rest : WorkflowState -> M WorkflowState) (state : WorkflowState)
    (w w1 : World) :
  truthy (dict_get state "jira_ticket_data") = false ->
  progress_callback ("tech-architect", "Starting impact analysis...", 20%Z) w = (w1, inr tt) ->
  technical_architect_execute progress_callback architect_rest state w =
  (w1, inr {["error" := VStr "TechnicalArchitectAgent failed: Jira ticket data not available"]}).
Proof.
  intros Ht Hp. unfold technical_architect_execute, try_except, bind.
  rewrite Hp, Ht. reflexivity.
Qed.

(** The check of [ProductManagerAgent.execute] is on the presence of the
    three keys, not on their values: with all three present (whatever
    their values, [None] included) and a normal first report, the rest of
    the body runs under the [except]; with one missing it returns
    [{"error": "ProductManagerAgent failed: Required data not available for
    PRD generation"}]. *)
Theorem product_manager_precondition (progress_callback : Report -> M unit)
    (product_manager_rest : WorkflowState -> M WorkflowState) (state : WorkflowState)
    (w w1 : World) :
  progress_callback ("product-manager", "Starting PRD generation...", 20%Z) w = (w1, inr tt) ->
  (prd_inputs_present state = true <->
   is_Some (state !! "jira_ticket_data") /\ is_Some (state !! "impact_analysis") /\
   is_Some (state !! "solution_architecture")) /\
  (prd_inputs_present state = true ->
   product_manager_execute progress_callback product_manager_rest state w =
   try_except (product_manager_rest state)
     (fun error => ret {["error" := VStr ("ProductManagerAgent failed: " ++ error)]}) w1) /\
  (prd_inputs_present state = false ->
   product_manager_execute progress_callback product_manager_rest state w =
   (w1, inr {["error" := VStr ("ProductManagerAgent failed: " ++
                 "Required data not available for PRD generation")]})).
Proof.
  intros Hp. split.
  - unfold prd_inputs_present; simpl. rewrite !andb_true_iff, !bool_decide_eq_true.
    tauto.
  - unfold product_manager_execute, try_except, bind. rewrite Hp.
    split; intros ->; reflexivity.
Qed.

(** [ProductManagerAgent.execute] never raises either: it returns what the
    rest of its body returns or the dict [{"error": "ProductManagerAgent
    failed: ..."}]. *)
Theorem product_manager_never_raises (progress_callback : Report -> M unit)
    (product_manager_rest : WorkflowState -> M WorkflowState) (state : WorkflowState)
    (w : World) :
  exists d,
    (product_manager_execute progress_callback product_manager_rest state w).2 = inr d /\
    ((exists m, d = {["error" := VStr ("ProductManagerAgent failed: " ++ m)]}) \/
     exists w1 w2,
       progress_callback ("product-manager", "Starting PRD generation...", 20%Z) w =
         (w1, inr tt) /\
       prd_inputs_present state = true /\
       product_manager_rest state w1 = (w2, inr d)).
Proof.
  unfold product_manager_execute, try_except, bind.
  destruct (progress_callback _ w) as [w1 [m|[]]]; simpl; [eauto|].
  destruct (prd_inputs_present state) eqn:Ht; simpl.
  - destruct (product_manager_rest state w1) as [w2 [m|d]] eqn:Hr; simpl; [eauto|].
    exists d. split; [done|]. right. eauto.
  - eauto.
Qed.

(** ** The execution tasks *)

Lemma execute_workflow_tasks (stage : Stage) (wid : string) (e : Engine) :
  tasks (execute_workflow stage wid e).1 = tasks e.
Proof.
  unfold execute_workflow.
  destruct (active_workflows e !! wid); [case_decide|]; reflexivity.
Qed.

Lemma count_occ_remove_first (x y : string) (l : list string) :
  count_occ String.string_dec (remove_first x l) y +
  (if String.eqb x y && bool_decide (x ∈ l) then 1 else 0) =
  count_occ String.string_dec l y.
Proof.
  induction l as [|z l IH]; simpl.
  - by destruct (String.eqb x y).
  - destruct (String.eqb x z) eqn:Hxz.
    + apply String.eqb_eq in Hxz. subst z.
      rewrite bool_decide_true by (apply elem_of_cons; by left). rewrite andb_true_r.
      destruct (String.string_dec x y) as [->|Hne].
      * rewrite String.eqb_refl. lia.
      * rewrite (proj2 (String.eqb_neq x y) Hne). lia.
    + apply String.eqb_neq in Hxz. simpl.
      assert (Hin : bool_decide (x ∈ z :: l) = bool_decide (x ∈ l)).
      { apply bool_decide_ext. rewrite elem_of_cons. naive_solver. }
      rewrite Hin. destruct (String.string_dec z y); lia.
Qed.

Lemma count_runs_tasks (stage : Stage) (wid : string) (ops : list Op) (e : Engine) :
  count_runs stage wid ops e +
  count_occ String.string_dec (tasks (run_ops stage ops e)) wid =
  count_starts_of wid ops + count_occ String.string_dec (tasks e) wid.
Proof.
  unfold count_starts_of.
  revert e. induction ops as [|op ops IH]; intros e; simpl; [done|].
  rewrite <-Nat.add_assoc, IH.
  destruct op as [w tid now cb|w|w]; simpl.
  - rewrite count_occ_app. simpl.
    destruct (String.string_dec w wid) as [->|Hne].
    + rewrite String.eqb_refl. simpl. lia.
    + rewrite (proj2 (String.eqb_neq w wid) Hne). lia.
  - case_decide as Hin.
    + rewrite execute_workflow_tasks. simpl.
      pose proof (count_occ_remove_first w wid (tasks e)) as Hc.
      rewrite bool_decide_true in Hc by done. rewrite bool_decide_true by done.
      destruct (String.eqb w wid); simpl in *; lia.
    + rewrite bool_decide_false by done. rewrite andb_false_r. lia.
  - lia.
Qed.

(** Each [start_workflow] schedules one task and each task runs once: from
    the initial engine, the runs of a workflow identifier plus its tasks
    still pending equal the number of times it was started.  In
    particular a workflow is never driven more often than started. *)
Theorem task_runs_match_starts (stage : Stage) (ops : list Op) (wid : string) :
  count_runs stage wid ops engine_init +
  count_occ String.string_dec (tasks (run_ops stage ops engine_init)) wid =
  count_starts_of wid ops.
Proof.
  rewrite count_runs_tasks. simpl. lia.
Qed.

(** ** [_sanitize_filename] *)

Lemma splitext_parts (p : pystr) : ((splitext p).1 ++ (splitext p).2)%list = p.
Proof.
  unfold splitext.
  destruct (_ <? _)%Z; [destruct (existsb _ _)|]; simpl;
    [apply take_drop|apply app_nil_r|apply app_nil_r].
Qed.

Lemma replace_unsafe_safe (filename : pystr) :
  Forall (fun c => unsafe_char c = false) (replace_unsafe filename).
Proof.
  unfold replace_unsafe. apply Forall_forall. intros c Hc.
  apply list_elem_of_In, in_map_iff in Hc. destruct Hc as (c0 & <- & _).
  destruct (unsafe_char c0) eqn:Hu; [reflexivity|exact Hu].
Qed.

Lemma length_replace_unsafe (filename : pystr) :
  length (replace_unsafe filename) = length filename.
Proof. apply length_map. Qed.

(** The result of [_sanitize_filename] contains none of the characters
    [<], [>], [:], double quote, [/], backslash, [|], [?], [*]. *)
Theorem sanitize_filename_safe (filename : pystr) :
  Forall (fun c => unsafe_char c = false) (sanitize_filename filename).
Proof.
  unfold sanitize_filename.
  pose proof (replace_unsafe_safe filename) as Hs.
  destruct (200 <? length (replace_unsafe filename))%nat; [|exact Hs].
  pose proof (splitext_parts (replace_unsafe filename)) as Hp.
  destruct (splitext (replace_unsafe filename)) as [name ext]. simpl in Hp.
  rewrite <-Hp in Hs. apply Forall_app in Hs. destruct Hs as [Hn He].
  apply Forall_app. split; [|exact He].
  unfold py_prefix. destruct (0 <=? _)%Z; by apply Forall_take.
Qed.

(** A file name of at most 200 characters keeps its length; a longer one
    whose extension (as [os.path.splitext] finds it) has at most 200
    characters is cut to exactly 200 characters and keeps its extension. *)
Theorem sanitize_filename_length (filename : pystr) :
  let ext := (splitext (replace_unsafe filename)).2 in
  ((length filename <= 200)%nat -> length (sanitize_filename filename) = length filename) /\
  ((200 < length filename)%nat -> (length ext <= 200)%nat ->
   length (sanitize_filename filename) = 200%nat /\
   exists name', sanitize_filename filename = (name' ++ ext)%list).
Proof.
  simpl. unfold sanitize_filename.
  pose proof (length_replace_unsafe filename) as Hl.
  pose proof (splitext_parts (replace_unsafe filename)) as Hp.
  destruct (splitext (replace_unsafe filename)) as [name ext]. simpl in *.
  assert (Hlen : length (replace_unsafe filename) = (length name + length ext)%nat)
    by (rewrite <-Hp; apply length_app).
  split.
  - intros H. rewrite (proj2 (Nat.ltb_ge _ _)) by lia. exact Hl.
  - intros H1 H2. rewrite (proj2 (Nat.ltb_lt _ _)) by lia.
    unfold py_prefix. rewrite (proj2 (Z.leb_le _ _)) by lia.
    split; [|eauto].
    rewrite length_app, length_take. lia.
Qed.

(** The length limit does not hold when the extension itself is longer
    than 200 characters: [name[:200-len(ext)]] then counts from the end,
    and the result is longer than 200 characters. *)
Theorem sanitize_filename_long_extension (filename : pystr) :
  (200 < length (splitext (replace_unsafe filename)).2)%nat ->
  (200 < length (sanitize_filename filename))%nat.
Proof.
  unfold sanitize_filename.
  pose proof (splitext_parts (replace_unsafe filename)) as Hp.
  destruct (splitext (replace_unsafe filename)) as [name ext]. simpl in *.
  intros H.
  assert (Hlen : length (replace_unsafe filename) = (length name + length ext)%nat)
    by (rewrite <-Hp; apply length_app).
  rewrite (proj2 (Nat.ltb_lt _ _)) by lia.
  rewrite length_app. lia.
Qed.

(** ** [_parse_architect_response] *)

Lemma starts_with_app (p s : pystr) : starts_with p (p ++ s) = true.
Proof. induction p as [|x p IH]; simpl; [done|]. by rewrite Z.eqb_refl, IH. Qed.

Lemma split_first_unfold (sep s : pystr) :
  split_first sep s =
  if starts_with sep s then Some ([], drop (length sep) s) else
  match s with
  | [] => None
  | c :: s' =>
      match split_first sep s' with
      | Some (b, a) => Some (c :: b, a)
      | None => None
      end
  end.
Proof. by destruct s. Qed.

Lemma split_first_occurs (sep pre post : pystr) :
  split_first sep (pre ++ sep ++ post) <> None.
Proof.
  induction pre as [|c pre IH]; rewrite split_first_unfold; cbn [app].
  - by rewrite starts_with_app.
  - destruct (starts_with sep (c :: pre ++ sep ++ post)); [done|].
    destruct (split_first sep (pre ++ sep ++ post)) as [[b a]|]; done.
Qed.

Lemma starts_with_spec (p s : pystr) :
  starts_with p s = true -> s = (p ++ drop (length p) s)%list.
Proof.
  revert s. induction p as [|x p IH]; intros s; simpl; [done|].
  destruct s as [|y s]; [discriminate|].
  intros [Hxy%Z.eqb_eq Hs]%andb_true_iff. subst y. simpl. f_equal. by apply IH.
Qed.

Lemma split_first_some (sep s b a : pystr) :
  split_first sep s = Some (b, a) -> s = (b ++ sep ++ a)%list.
Proof.
  revert b. induction s as [|c s IH]; intros b; simpl.
  - destruct (starts_with sep []) eqn:H; [|discriminate].
    intros [= <- <-]. simpl. by apply starts_with_spec.
  - destruct (starts_with sep (c :: s)) eqn:H.
    + intros [= <- <-]. simpl. by apply starts_with_spec.
    + destruct (split_first sep s) as [[b' a']|]; [|discriminate].
      intros [= <- <-]. simpl. f_equal. by apply IH.
Qed.

Lemma py_split_more (sep s : pystr) :
  (1 < length (py_split sep s))%nat <-> split_first sep s <> None.
Proof.
  unfold py_split; simpl.
  destruct (split_first sep s) as [[b a]|]; simpl; [|split; [lia|done]].
  split; [done|intros _].
  destruct (length s); simpl; [lia|].
  destruct (split_first sep a) as [[? ?]|]; simpl; lia.
Qed.

Lemma lstrip_app_nonspace (l1 l2 : pystr) (c : Z) :
  py_isspace c = false -> exists l1', py_lstrip (l1 ++ c :: l2) = (l1' ++ c :: l2)%list.
Proof.
  intros Hc. induction l1 as [|x l1 IH]; simpl.
  - exists []. by rewrite Hc.
  - destruct (py_isspace x); [exact IH|]. by exists (x :: l1).
Qed.

Lemma strip_solution (x : pystr) :
  exists rest, py_strip (pystr_of_string "## Solution Architecture" ++ x) =
               (pystr_of_string "## Solution Architecture" ++ rest)%list.
Proof.
  unfold py_strip.
  change (pystr_of_string "## Solution Architecture" ++ x)%list
    with (35%Z :: (tail (pystr_of_string "## Solution Architecture") ++ x)%list).
  cbn [py_lstrip]. replace (py_isspace 35) with false by reflexivity.
  change (35%Z :: (tail (pystr_of_string "## Solution Architecture") ++ x)%list)
    with (pystr_of_string "## Solution Architecture" ++ x)%list.
  rewrite rev_app_distr.
  change (rev (pystr_of_string "## Solution Architecture"))
    with (101%Z :: tail (rev (pystr_of_string "## Solution Architecture"))).
  destruct (lstrip_app_nonspace (rev x)
              (tail (rev (pystr_of_string "## Solution Architecture"))) 101 eq_refl)
    as [l1' ->].
  exists (rev l1'). rewrite rev_app_distr.
  change (101%Z :: tail (rev (pystr_of_string "## Solution Architecture")))
    with (rev (pystr_of_string "## Solution Architecture")).
  by rewrite rev_involutive.
Qed.

(** [solution_architecture] is empty exactly when the response has no
    [## Solution Architecture] heading; otherwise it starts with that
    heading. *)
Theorem parse_architect_solution (response : pystr) :
  let marker := pystr_of_string "## Solution Architecture" in
  let r := parse_architect_response response in
  ((~ exists pre post, response = (pre ++ marker ++ post)%list) ->
   solution_architecture r = []) /\
  ((exists pre post, response = (pre ++ marker ++ post)%list) ->
   exists rest, solution_architecture r = (marker ++ rest)%list).
Proof.
  cbv zeta. unfold parse_architect_response. cbv zeta. cbn [solution_architecture].
  split.
  - intros Hno.
    destruct (1 <? length (py_split (pystr_of_string "## Solution Architecture") response))%nat
      eqn:H; [|done].
    apply Nat.ltb_lt, py_split_more in H. exfalso.
    destruct (split_first (pystr_of_string "## Solution Architecture") response)
      as [[b a]|] eqn:Hs; [|done].
    apply split_first_some in Hs. apply Hno. by exists b, a.
  - intros (pre & post & ->).
    rewrite (proj2 (Nat.ltb_lt _ _)) by (apply py_split_more, split_first_occurs).
    apply strip_solution.
Qed.

(** ** The vector store *)

Lemma dom_add_documents (docs : list (string * string * option (gmap string value)))
    (vs : VectorStore) :
  dom (documents (add_documents docs vs)) =
  dom (documents vs) ∪ list_to_set (map (fun d => d.1.1) docs).
Proof.
  unfold add_documents. revert vs.
  induction docs as [|[[i c] m] docs IH]; intros vs; simpl; [set_solver|].
  rewrite IH. unfold add_document; simpl. rewrite dom_insert_L. set_solver.
Qed.

(** After adding documents, [get_document_count] is the number of
    distinct identifiers, old and new: a document added under an existing
    identifier replaces it.  The store then has to be refitted. *)
Theorem add_documents_count (docs : list (string * string * option (gmap string value)))
    (vs : VectorStore) :
  get_document_count (add_documents docs vs) =
  size (dom (documents vs) ∪ list_to_set (map (fun d => d.1.1) docs) : gset string) /\
  (docs <> [] -> fitted (add_documents docs vs) = false).
Proof.
  split.
  - unfold get_document_count. rewrite <-size_dom. by rewrite dom_add_documents.
  - unfold add_documents. intros Hne.
    destruct docs as [|d docs] using rev_ind; [done|].
    rewrite fold_left_app. simpl. destruct d as [[i c] m]. reflexivity.
Qed.

(** ** Witnesses: the hypotheses of the theorems above hold on concrete
    inputs *)

Lemma start_workflow_other_entries_witness :
  "wf-2" <> "wf-1" /\
  get_workflow_status "wf-2"
    (start_workflow "wf-1" "ABC-1" "2024-01-01T00:00:00" None engine_init).1 =
  get_workflow_status "wf-2" engine_init /\
  progress_callbacks
    (start_workflow "wf-1" "ABC-1" "2024-01-01T00:00:00" None engine_init).1 !! "wf-2" =
  progress_callbacks engine_init !! "wf-2".
Proof.
  split; [discriminate|].
  apply (start_workflow_other_entries "wf-1" "ABC-1" "2024-01-01T00:00:00" None
           engine_init "wf-2").
  discriminate.
Defined.

Lemma execute_workflow_other_entries_witness :
  let e := (start_workflow "wf-1" "ABC-1" "2024-01-01T00:00:00" None engine_init).1 in
  "wf-2" <> "wf-1" /\
  get_workflow_status "wf-2" (execute_workflow stage_noop "wf-1" e).1 =
  get_workflow_status "wf-2" e /\
  dom (active_workflows (execute_workflow stage_noop "wf-1" e).1) =
  dom (active_workflows e) /\
  progress_callbacks (execute_workflow stage_noop "wf-1" e).1 = progress_callbacks e /\
  tasks (execute_workflow stage_noop "wf-1" e).1 = tasks e.
Proof.
  intros e. split; [discriminate|].
  apply (execute_workflow_other_entries stage_noop "wf-1" "wf-2" e).
  discriminate.
Defined.

Lemma jira_analyst_result_witness :
  exists d,
    (jira_analyst_execute (fun _ => inr ticket_abc) (fun _ _ => inl "no export")
       (fun _ => false) (fun _ => inl "no HSD") ∅).2 = inr d /\
    d !! "status" = Some (VStr "completed").
Proof.
  eexists. split; [reflexivity|].
  exact (proj1 (proj2 (proj2 (proj2
    (jira_analyst_result (fun _ => inr ticket_abc) (fun _ _ => inl "no export")
       (fun _ => false) (fun _ => inl "no HSD") ∅ _ eq_refl))))).
Defined.

Lemma connect_then_disconnect_witness :
  (3 ∉ [1; 2]) /\ connect (fun _ => None) 3 [1; 2] = inr [1; 2; 3] /\
  disconnect 3 [1; 2; 3] = [1; 2] /\ disconnect 3 [1; 2] = [1; 2].
Proof.
  assert (Hn : 3 ∉ [1; 2]).
  { rewrite !not_elem_of_cons. repeat split; [lia|lia|apply not_elem_of_nil]. }
  split; [exact Hn|]. split; [reflexivity|].
  exact (connect_then_disconnect (fun _ => None) 3 [1; 2] [1; 2; 3] Hn eq_refl).
Defined.

Lemma technical_architect_missing_data_witness :
  truthy (dict_get ∅ "jira_ticket_data") = false /\
  (fun _ : Report => ret tt) ("tech-architect", "Starting impact analysis...", 20%Z)
    (world0 ∅) = (world0 ∅, inr tt) /\
  technical_architect_execute (fun _ => ret tt) (fun _ => ret ∅) ∅ (world0 ∅) =
  (world0 ∅, inr {["error" :=
     VStr "TechnicalArchitectAgent failed: Jira ticket data not available"]}).
Proof.
  split; [reflexivity|]. split; [reflexivity|].
  apply (technical_architect_missing_data (fun _ => ret tt) (fun _ => ret ∅) ∅
           (world0 ∅) (world0 ∅)); reflexivity.
Defined.

(** The three keys present with the value [None]. *)
Lemma product_manager_precondition_witness :
  let state : WorkflowState :=
    <["jira_ticket_data" := VNone]> (<["impact_analysis" := VNone]>
      {["solution_architecture" := VNone]}) in
  (fun _ : Report => ret tt) ("product-manager", "Starting PRD generation...", 20%Z)
    (world0 ∅) = (world0 ∅, inr tt) /\
  prd_inputs_present state = true /\
  product_manager_execute (fun _ => ret tt) (fun _ => ret ∅) state (world0 ∅) =
  try_except (ret ∅)
    (fun error => ret {["error" := VStr ("ProductManagerAgent failed: " ++ error)]})
    (world0 ∅).
Proof.
  intros state.
  assert (Hp : (fun _ : Report => ret tt)
                 ("product-manager", "Starting PRD generation...", 20%Z)
                 (world0 ∅) = (world0 ∅, inr tt)) by reflexivity.
  assert (Hs : prd_inputs_present state = true) by (vm_compute; reflexivity).
  split; [exact Hp|]. split; [exact Hs|].
  exact (proj1 (proj2 (product_manager_precondition (fun _ => ret tt) (fun _ => ret ∅)
                         state (world0 ∅) (world0 ∅) Hp)) Hs).
Defined.

Lemma sanitize_filename_long_extension_witness :
  (200 < length (splitext (replace_unsafe (97%Z :: 46%Z :: repeat 98%Z 250))).2)%nat /\
  (200 < length (sanitize_filename (97%Z :: 46%Z :: repeat 98%Z 250)))%nat.
Proof.
  assert (H : (200 < length (splitext (replace_unsafe
                 (97%Z :: 46%Z :: repeat 98%Z 250))).2)%nat)
    by (apply Nat.ltb_lt; vm_compute; reflexivity).
  split; [exact H|]. exact (sanitize_filename_long_extension _ H).
Defined.


Lemma broadcast_removes_failed_witness :
  let sf := fun c (_ : string) => Nat.eqb c 1 in
  let s := mkConns [1; 2] [] [] in
  let evs := [EBroadcast "e1"%string; EBroadcast "e2"%string; EResume 0] in
  NoDup (active_connections s) /\ connects_fresh sf evs s /\
  ~ In 1 (active_connections (cstep sf (EResume 0) (csched sf evs s))).
Proof.
  intros sf s evs.
  assert (Hn : NoDup (active_connections s))
    by (apply NoDup_ListNoDup; repeat constructor; simpl; intuition lia).
  assert (Hf : connects_fresh sf evs s) by (simpl; repeat split).
  split; [exact Hn|]. split; [exact Hf|].
  apply (proj2 (broadcast_removes_failed string sf evs s Hn Hf) 0 "e1"%string 2 2 [1]);
    [vm_compute; reflexivity | vm_compute; reflexivity | simpl; auto].
Defined.

Lemma jira_get_ticket_wraps_errors_witness :
  let log_ticket_details := fun _ : JiraTicketData =>
    Some "'NoneType' object has no attribute 'get'"%string in
  jira_get_ticket (fetch_and_log (fun _ => Some ticket_abc) log_ticket_details) (VStr "A-1") =
  inl ("Unable to fetch Jira ticket " ++ py_str (VStr "A-1") ++ ": " ++
       "'NoneType' object has no attribute 'get'").
Proof.
  intros log_ticket_details.
  exact (proj2 (proj2 (jira_get_ticket_wraps_errors (fun _ => Some ticket_abc)
                         log_ticket_details (VStr "A-1")))
           ticket_abc _ eq_refl eq_refl).
Defined.
